(** * A shallow embedding of the recursive page-to-Markdown crawler

    Source: [WebScrapping/CAR/PagBasicaRecursiva2md.py], class
    [MarkdownExtractor] (methods [_normalize_url], [_filename_from_url] and
    [fetch_and_save]).

    Conventions of the embedding:
    - a Python [str] is a Rocq [string]; a character is a code point below
      256, so [len] is [String.length] and [str.encode()] is the UTF-8
      encoding of such code points;
    - Python integers ([depth], [max_depth]) are [Z];
    - a raised exception is [None] in pure helpers and the outcome [Raised]
      in the crawl engine;
    - [self.visited_urls] is a [gset string]; the disk is a pair of a set of
      directories and a finite map from file paths to file contents;
    - the collaborators the script imports ([requests], [BeautifulSoup],
      [markdownify], [urljoin] and the address validators of
      [urllib.parse]) are fields of type classes;
    - [urllib.parse.urlparse], [posixpath.join], [posixpath.dirname] and
      [hashlib.md5] are modelled after their CPython 3.11 and RFC 1321
      definitions, and are executable. *)

From Stdlib Require Import ZArith NArith Ascii String List Lia Bool.
From stdpp Require Import base gmap strings list.

Local Open Scope string_scope.
#[local] Arguments String.append !_ _ / : simpl nomatch.
#[local] Arguments Ascii.eqb : simpl never.
Local Open Scope list_scope.
#[local] Set Warnings "-clear-no-such-hyp".

(** ** Python string primitives *)

Module PyStr.

Definition chr (n : nat) : ascii := ascii_of_nat n.
Definition ord (c : ascii) : nat := nat_of_ascii c.

Definition is_char (a c : ascii) : bool := Ascii.eqb a c.

(** [c in chars] for a character [c]. *)
Fixpoint char_in (chars : string) (c : ascii) : bool :=
  match chars with
  | EmptyString => false
  | String a rest => Ascii.eqb a c || char_in rest c
  end.

(** [any(p(c) for c in s)] and [all(p(c) for c in s)]. *)
Fixpoint any (p : ascii -> bool) (s : string) : bool :=
  match s with
  | EmptyString => false
  | String c s' => p c || any p s'
  end.

Fixpoint all (p : ascii -> bool) (s : string) : bool :=
  match s with
  | EmptyString => true
  | String c s' => p c && all p s'
  end.

Definition is_empty (s : string) : bool :=
  match s with EmptyString => true | _ => false end.

(** [s.lstrip(chars)], with the character set given as a predicate. *)
Fixpoint lstrip (p : ascii -> bool) (s : string) : string :=
  match s with
  | EmptyString => EmptyString
  | String c s' => if p c then lstrip p s' else s
  end.

(** [s.rstrip(chars)]. *)
Fixpoint rstrip (p : ascii -> bool) (s : string) : string :=
  match s with
  | EmptyString => EmptyString
  | String c s' =>
      let r := rstrip p s' in
      if p c && is_empty r then EmptyString else String c r
  end.

(** [s.strip(chars)]. *)
Definition strip (p : ascii -> bool) (s : string) : string :=
  lstrip p (rstrip p s).

(** Removal of every character satisfying [p] ([s.replace(b, "")] for
    one-character [b]). *)
Fixpoint remove (p : ascii -> bool) (s : string) : string :=
  match s with
  | EmptyString => EmptyString
  | String c s' => if p c then remove p s' else String c (remove p s')
  end.

Fixpoint map (f : ascii -> ascii) (s : string) : string :=
  match s with
  | EmptyString => EmptyString
  | String c s' => String (f c) (map f s')
  end.

(** [break p s = (s[:i], s[i:])] where [i] is the index of the first
    character satisfying [p], or [len(s)] when there is none. *)
Fixpoint break (p : ascii -> bool) (s : string) : string * string :=
  match s with
  | EmptyString => (EmptyString, EmptyString)
  | String c s' =>
      if p c then (EmptyString, s)
      else let '(a, b) := break p s' in (String c a, b)
  end.

(** [rbreak p s = (s[:i+1], s[i+1:])] where [i] is the index of the last
    character satisfying [p]; the first component is empty when there is
    none. *)
Fixpoint rbreak (p : ascii -> bool) (s : string) : string * string :=
  match s with
  | EmptyString => (EmptyString, EmptyString)
  | String c s' =>
      let '(a, b) := rbreak p s' in
      if is_empty a
      then (if p c then (String c EmptyString, b) else (EmptyString, String c b))
      else (String c a, b)
  end.

(** [s[1:]]. *)
Definition tail (s : string) : string :=
  match s with EmptyString => EmptyString | String _ s' => s' end.

(** [s[:n]]. *)
Fixpoint take (n : nat) (s : string) : string :=
  match n, s with
  | S n', String c s' => String c (take n' s')
  | _, _ => EmptyString
  end.

(** [s[n:]]. *)
Fixpoint drop (n : nat) (s : string) : string :=
  match n, s with
  | S n', String _ s' => drop n' s'
  | _, _ => s
  end.

(** [s[-n:]] for [0 < n]. *)
Definition last (n : nat) (s : string) : string :=
  drop (String.length s - n) s.

(** [s.startswith(c)] and [s.endswith(c)] for a character [c]. *)
Definition startswith (c : ascii) (s : string) : bool :=
  match s with String a _ => Ascii.eqb a c | EmptyString => false end.

Fixpoint endswith (c : ascii) (s : string) : bool :=
  match s with
  | EmptyString => false
  | String a EmptyString => Ascii.eqb a c
  | String _ s' => endswith c s'
  end.

(** [c * n]. *)
Fixpoint replicate (n : nat) (c : ascii) : string :=
  match n with O => EmptyString | S n' => String c (replicate n' c) end.

(** ASCII character classes. *)
Definition is_upper (c : ascii) : bool := (65 <=? ord c)%nat && (ord c <=? 90)%nat.
Definition is_lower (c : ascii) : bool := (97 <=? ord c)%nat && (ord c <=? 122)%nat.
Definition is_digit (c : ascii) : bool := (48 <=? ord c)%nat && (ord c <=? 57)%nat.
Definition is_ascii_alpha (c : ascii) : bool := is_upper c || is_lower c.

(** [c.lower()] on ASCII letters; other characters unchanged (the model
    lowers schemes only, which are ASCII). *)
Definition lower_char (c : ascii) : ascii :=
  if is_upper c then chr (ord c + 32) else c.

Definition lower (s : string) : string := map lower_char s.

(** [str.isspace] on code points below 256. *)
Definition is_space (c : ascii) : bool :=
  let n := ord c in
  ((9 <=? n)%nat && (n <=? 13)%nat) || ((28 <=? n)%nat && (n <=? 32)%nat)
  || (n =? 133)%nat || (n =? 160)%nat.

(** [s.encode()]: UTF-8 of code points below 256, as byte values. *)
Fixpoint encode (s : string) : list N :=
  match s with
  | EmptyString => []
  | String c s' =>
      let n := N_of_ascii c in
      if (n <? 128)%N then n :: encode s'
      else N.lor 192 (N.shiftr n 6) :: N.lor 128 (N.land n 63) :: encode s'
  end.

(** [a] is an initial part of [s]. *)
Definition initial (a s : string) : Prop := exists t, s = a +:+ t.

End PyStr.

Arguments PyStr.is_char : simpl never.

(** ** hashlib.md5 (RFC 1321) *)

Module MD5.
Local Open Scope N_scope.

Definition mask32 : N := 0xFFFFFFFF.
Definition add32 (a b : N) : N := N.land (a + b) mask32.
Definition not32 (a : N) : N := N.lxor a mask32.
Definition rotl32 (x c : N) : N :=
  N.lor (N.land (N.shiftl x c) mask32) (N.shiftr x (32 - c)).

Definition K : list N :=
  [ 0xd76aa478; 0xe8c7b756; 0x242070db; 0xc1bdceee;
    0xf57c0faf; 0x4787c62a; 0xa8304613; 0xfd469501;
    0x698098d8; 0x8b44f7af; 0xffff5bb1; 0x895cd7be;
    0x6b901122; 0xfd987193; 0xa679438e; 0x49b40821;
    0xf61e2562; 0xc040b340; 0x265e5a51; 0xe9b6c7aa;
    0xd62f105d; 0x02441453; 0xd8a1e681; 0xe7d3fbc8;
    0x21e1cde6; 0xc33707d6; 0xf4d50d87; 0x455a14ed;
    0xa9e3e905; 0xfcefa3f8; 0x676f02d9; 0x8d2a4c8a;
    0xfffa3942; 0x8771f681; 0x6d9d6122; 0xfde5380c;
    0xa4beea44; 0x4bdecfa9; 0xf6bb4b60; 0xbebfbc70;
    0x289b7ec6; 0xeaa127fa; 0xd4ef3085; 0x04881d05;
    0xd9d4d039; 0xe6db99e5; 0x1fa27cf8; 0xc4ac5665;
    0xf4292244; 0x432aff97; 0xab9423a7; 0xfc93a039;
    0x655b59c3; 0x8f0ccc92; 0xffeff47d; 0x85845dd1;
    0x6fa87e4f; 0xfe2ce6e0; 0xa3014314; 0x4e0811a1;
    0xf7537e82; 0xbd3af235; 0x2ad7d2bb; 0xeb86d391 ].

Definition shifts : list N :=
  [ 7; 12; 17; 22; 7; 12; 17; 22; 7; 12; 17; 22; 7; 12; 17; 22;
    5; 9; 14; 20; 5; 9; 14; 20; 5; 9; 14; 20; 5; 9; 14; 20;
    4; 11; 16; 23; 4; 11; 16; 23; 4; 11; 16; 23; 4; 11; 16; 23;
    6; 10; 15; 21; 6; 10; 15; 21; 6; 10; 15; 21; 6; 10; 15; 21 ].

Definition word_state : Type := N * N * N * N.

Definition init_state : word_state :=
  (0x67452301, 0xefcdab89, 0x98badcfe, 0x10325476).

(** Message padding: a 1 bit, zeros up to 56 modulo 64 bytes, then the bit
    length as 8 little-endian bytes. *)
Definition le_bytes (n : nat) (x : N) : list N :=
  List.map (fun i => N.land (N.shiftr x (8 * N.of_nat i)) 255) (seq 0 n).

Definition pad (msg : list N) : list N :=
  let len := List.length msg in
  let zeros := ((55 + 64 - len mod 64) mod 64)%nat in
  msg ++ [128] ++ List.repeat 0 zeros ++ le_bytes 8 (8 * N.of_nat len).

Definition word_of_bytes (bs : list N) : N :=
  fold_right (fun b acc => b + 256 * acc) 0 bs.

Fixpoint words_of_bytes (n : nat) (bs : list N) : list N :=
  match n with
  | O => []
  | S n' => word_of_bytes (firstn 4 bs) :: words_of_bytes n' (skipn 4 bs)
  end.

Definition step (M : list N) (st : word_state) (i : nat) : word_state :=
  let '(a, b, c, d) := st in
  let '(f, g) :=
    if (i <? 16)%nat then (N.lor (N.land b c) (N.land (not32 b) d), i)
    else if (i <? 32)%nat then
      (N.lor (N.land d b) (N.land (not32 d) c), ((5 * i + 1) mod 16)%nat)
    else if (i <? 48)%nat then
      (N.lxor (N.lxor b c) d, ((3 * i + 5) mod 16)%nat)
    else (N.lxor c (N.lor b (not32 d)), ((7 * i) mod 16)%nat) in
  let f' := add32 (add32 (add32 f a) (nth i K 0)) (nth g M 0) in
  (d, add32 b (rotl32 f' (nth i shifts 0)), b, c).

Definition compress (st : word_state) (block : list N) : word_state :=
  let M := words_of_bytes 16 block in
  let '(a, b, c, d) := st in
  let '(a', b', c', d') := fold_left (step M) (seq 0 64) st in
  (add32 a a', add32 b b', add32 c c', add32 d d').

Fixpoint blocks (n : nat) (bs : list N) : list (list N) :=
  match n with
  | O => []
  | S n' => firstn 64 bs :: blocks n' (skipn 64 bs)
  end.

Definition digest (msg : list N) : list N :=
  let p := pad msg in
  let '(a, b, c, d) :=
    fold_left compress (blocks (List.length p / 64) p) init_state in
  le_bytes 4 a ++ le_bytes 4 b ++ le_bytes 4 c ++ le_bytes 4 d.

Definition hex_digit (n : N) : ascii :=
  if n <? 10 then ascii_of_N (48 + n) else ascii_of_N (87 + n).

Fixpoint hex (bs : list N) : string :=
  match bs with
  | [] => EmptyString
  | b :: bs' =>
      String (hex_digit (N.shiftr b 4)) (String (hex_digit (N.land b 15)) (hex bs'))
  end.

(** [hashlib.md5(s.encode()).hexdigest()]. *)
Definition hexdigest (s : string) : string := hex (digest (PyStr.encode s)).

End MD5.

Arguments MD5.hexdigest : simpl never.

(** ** urllib.parse *)

(** The parts of [urllib.parse] that the model does not compute: the
    resolution of a reference against a base ([urljoin]) and the two host
    validators of [urlsplit], which raise [ValueError] when they fail. *)
Class UrlLib := {
  (** [urljoin(base, url)]; [None] when it raises. *)
  urljoin : string -> string -> option string;
  (** [_check_bracketed_netloc(netloc)] does not raise. *)
  check_bracketed_netloc : string -> bool;
  (** The NFKC test of [_checknetloc(netloc)] does not raise. *)
  checknetloc_nfkc : string -> bool
}.

Record ParseResult := mkParseResult {
  scheme : string;
  netloc : string;
  path : string;
  params : string;
  query : string;
  fragment : string
}.

Module UrlParse.
Import PyStr.

Definition uses_params : list string :=
  [ ""; "ftp"; "hdl"; "prospero"; "http"; "imap"; "https"; "shttp"; "rtsp";
    "rtspu"; "sip"; "sips"; "mms"; "sftp"; "tel" ].

Definition in_uses_params (s : string) : bool :=
  existsb (String.eqb s) uses_params.

(** Membership in [_WHATWG_C0_CONTROL_OR_SPACE]. *)
Definition is_c0_or_space (c : ascii) : bool := (ord c <=? 32)%nat.

(** Membership in [_UNSAFE_URL_BYTES_TO_REMOVE] (tab, CR, LF). *)
Definition is_unsafe (c : ascii) : bool :=
  (ord c =? 9)%nat || (ord c =? 13)%nat || (ord c =? 10)%nat.

(** Membership in [scheme_chars]. *)
Definition is_scheme_char (c : ascii) : bool :=
  is_ascii_alpha c || is_digit c || char_in "+-." c.

Definition is_ascii (c : ascii) : bool := (ord c <? 128)%nat.

(** The scheme test of [urlsplit]: [i = url.find(':')], [i > 0], a leading
    ASCII letter and only scheme characters before the colon. *)
Definition split_scheme (url : string) : string * string :=
  let '(pre, rest) := break (is_char ":") url in
  match pre, rest with
  | String c0 _, String _ rest' =>
      if is_ascii_alpha c0 && all is_scheme_char pre
      then (lower pre, rest')
      else (EmptyString, url)
  | _, _ => (EmptyString, url)
  end.

(** [_splitnetloc(url, 2)]. *)
Definition _splitnetloc (url : string) : string * string :=
  break (char_in "/?#") (drop 2 url).

(** The [ValueError] tests of [urlsplit] on the host part. *)
Definition netloc_ok `{UrlLib} (netloc : string) : bool :=
  let lb := any (is_char "[") netloc in
  let rb := any (is_char "]") netloc in
  negb (xorb lb rb)
  && (if lb && rb then check_bracketed_netloc netloc else true)
  && (if is_empty netloc || all is_ascii netloc
      then true else checknetloc_nfkc netloc).

(** [url.split(c, 1)] when [c in url], else [(url, "")]. *)
Definition split_once (c : ascii) (url : string) : string * string :=
  let '(a, b) := break (is_char c) url in
  if is_empty b then (url, EmptyString) else (a, tail b).

(** [urlsplit(url)]: scheme, netloc, path, query, fragment. *)
Definition urlsplit `{UrlLib} (url : string)
  : option (string * string * string * string * string) :=
  let url := lstrip is_c0_or_space url in
  let url := remove is_unsafe url in
  let '(scheme, url) := split_scheme url in
  let '(netloc, url) :=
    if String.eqb (take 2 url) "//" then _splitnetloc url else (EmptyString, url) in
  if netloc_ok netloc then
    let '(url, fragment) := split_once "#" url in
    let '(url, query) := split_once "?" url in
    Some (scheme, netloc, url, query, fragment)
  else None.

(** [_splitparams(url)]. *)
Definition _splitparams (url : string) : string * string :=
  if any (is_char "/") url then
    let '(head, seg) := rbreak (is_char "/") url in
    let '(a, b) := break (is_char ";") seg in
    if is_empty b then (url, EmptyString) else (head +:+ a, tail b)
  else
    let '(a, b) := break (is_char ";") url in
    if is_empty b then (take (String.length url - 1) url, url)
    else (a, tail b).

(** [urlparse(url)]; [None] when [urlsplit] raises [ValueError]. *)
Definition urlparse `{UrlLib} (url : string) : option ParseResult :=
  match urlsplit url with
  | None => None
  | Some (scheme, netloc, url, query, fragment) =>
      let '(url, params) :=
        if in_uses_params scheme && any (is_char ";") url
        then _splitparams url else (url, EmptyString) in
      Some (mkParseResult scheme netloc url params query fragment)
  end.

(** A scheme as [urlsplit] returns it when it finds one. *)
Definition valid_scheme (s : string) : bool :=
  match s with
  | String c0 _ => is_ascii_alpha c0 && all is_scheme_char s
  | EmptyString => false
  end.

(** The last segment of a path: what follows its last slash. *)
Definition last_segment (path : string) : string := snd (rbreak (is_char "/") path).

(** The properties of scheme, host and path that the parser establishes
    and that make a canonical string parse back into its parts. *)
Record well_split `{UrlLib} (s n p : string) : Prop := {
  ws_scheme : s = "" \/ (valid_scheme s = true /\ lower s = s);
  ws_netloc_safe : any is_unsafe n = false;
  ws_path_safe : any is_unsafe p = false;
  ws_netloc_delim : any (char_in "/?#") n = false;
  ws_netloc_ok : netloc_ok n = true;
  ws_path_head : n <> "" -> p = "" \/ startswith "/" p = true;
  ws_path_fragment : any (is_char "#") p = false;
  ws_path_query : any (is_char "?") p = false
}.

End UrlParse.

(** ** posixpath *)

Module PosixPath.
Import PyStr.

(** [os.path.join(a, b)]. *)
Definition join (a b : string) : string :=
  if startswith "/" b then b
  else if is_empty a || endswith "/" a then a +:+ b
  else a +:+ "/" +:+ b.

(** [os.path.dirname(p)]. *)
Definition dirname (p : string) : string :=
  let '(head, _) := rbreak (is_char "/") p in
  if negb (is_empty head) && negb (all (is_char "/") head)
  then rstrip (is_char "/") head else head.

End PosixPath.

(** ** MarkdownExtractor: the pure helpers *)

(** The attributes set by [__init__] that never change afterwards. *)
Record MarkdownExtractor := mkExtractor {
  base_folder : string;
  max_depth : Z
}.

Section Helpers.
Context `{UrlLib}.
Import PyStr.

(** [_normalize_url]: [f"{p.scheme}://{p.netloc}{p.path}".rstrip("/")]. *)
Definition _normalize_url (url : string) : option string :=
  match UrlParse.urlparse url with
  | None => None
  | Some p =>
      Some (rstrip (is_char "/") (scheme p +:+ "://" +:+ netloc p +:+ path p))
  end.

(** The character class of the regular expression in
    [_filename_from_url]: the nine characters <, >, colon, double quote,
    slash, backslash, bar, question mark and star. *)
Definition forbidden_filename_chars : string :=
  "<>:/\|?*" +:+ String (chr 34) EmptyString.

Definition sanitize_char (c : ascii) : ascii :=
  if char_in forbidden_filename_chars c then "_"%char else c.

(** [_filename_from_url]. *)
Definition _filename_from_url (url : string) : option string :=
  match UrlParse.urlparse url with
  | None => None
  | Some p =>
      let stripped := strip (is_char "/") (path p) in
      let path := if is_empty stripped then "index" else stripped in
      let safe := map sanitize_char path in
      let short := if (50 <? String.length safe)%nat then last 50 safe else safe in
      Some (short +:+ ".md")
  end.

(** [hashlib.md5(final_url.encode()).hexdigest()[:8]]. *)
Definition hash_prefix (final_url : string) : string :=
  take 8 (MD5.hexdigest final_url).

(** The folder of a page: lines 107 to 109 of [fetch_and_save]. *)
Definition page_folder (self : MarkdownExtractor)
    (parent_folder : option string) (final_url : string) : string :=
  let folder :=
    match parent_folder with
    | None => base_folder self
    | Some parent => PosixPath.join (base_folder self) parent
    end in
  PosixPath.join folder (hash_prefix final_url).

(** The path before the length test ([filepath] at line 114). *)
Definition plain_filepath (folder filename : string) : string :=
  PosixPath.join folder filename.

(** The replacement name of line 118 and 119. *)
Definition fallback_filepath (folder filepath : string) : string :=
  PosixPath.join folder (take 10 (MD5.hexdigest filepath) +:+ ".md").

(** The path finally written: lines 114 to 119. *)
Definition choose_filepath (folder filename : string) : string :=
  let filepath := plain_filepath folder filename in
  if (240 <? String.length filepath)%nat
  then fallback_filepath folder filepath
  else filepath.

(** The path builder of [fetch_and_save], lines 107 to 119; [None] when
    [_filename_from_url] raises. *)
Definition page_filepath (self : MarkdownExtractor)
    (parent_folder : option string) (final_url : string) : option string :=
  match _filename_from_url final_url with
  | None => None
  | Some filename =>
      Some (choose_filepath (page_folder self parent_folder final_url) filename)
  end.

End Helpers.

(** The normalizer as the specification words it: scheme, host and path,
    with a single trailing slash stripped from the path. *)
Definition strip_one_slash (path : string) : string :=
  if PyStr.endswith "/" path
  then PyStr.take (String.length path - 1) path
  else path.

Definition normalize_spec `{UrlLib} (url : string) : option string :=
  match UrlParse.urlparse url with
  | None => None
  | Some p => Some (scheme p +:+ "://" +:+ netloc p +:+ strip_one_slash (path p))
  end.

(** ** The collaborators of the crawl engine *)

(** The arguments of [requests.get] at lines 43 to 48. *)
Record request := mkRequest {
  req_url : string;
  req_user_agent : string;
  req_allow_redirects : bool;
  req_timeout : Z
}.

(** What the engine reads of a response: [resp.url] and [resp.text]. *)
Record response := mkResponse {
  resp_url : string;
  resp_text : string
}.

(** The two forms of [soup.find] used: [find(tag)] and
    [find(tag, class_=cls)]. *)
Inductive selector :=
  | ByTag (tag : string)
  | ByTagClass (tag cls : string).

Class Collaborators := {
  (** The state of the network. *)
  World : Type;
  (** Parsed documents and their elements. *)
  Soup : Type;
  Element : Type;
  (** [requests.get(...)] followed by [resp.raise_for_status()]; [None]
      when either raises. *)
  requests_get : World -> request -> World * option response;
  (** [BeautifulSoup(text, "html.parser")]. *)
  BeautifulSoup : string -> Soup;
  (** [soup.find(...)]. *)
  soup_find : Soup -> selector -> option Element;
  (** [[a["href"] for a in el.find_all("a", href=True)]], in document
      order. *)
  href_values : Element -> list string;
  (** [for tag in el.find_all(tags): tag.decompose()]. *)
  decompose_all : list string -> Element -> Element;
  (** [md(str(el), heading_style="ATX", strip=["span"])]. *)
  markdownify : Element -> string
}.

(** ** The disk *)

Record filesystem := mkFs {
  dirs : gset string;
  files : gmap string string
}.

(** The disk holds directories and regular files under the paths as the
    program spells them; it has no links, no permissions and no limit on
    the length of a name. *)

(** The paths on the way to [p]: each part of [p] that is not empty and
    ends just before a slash, shortest first. [on_the_way "a/b/c"] is
    ["a"; "a/b"]. *)
Fixpoint on_the_way_from (walked p : string) : list string :=
  match p with
  | "" => []
  | String c rest =>
      (if PyStr.is_char "/" c && negb (PyStr.is_empty walked) then [walked] else [])
      ++ on_the_way_from (walked +:+ String c "") rest
  end.

Definition on_the_way (p : string) : list string := on_the_way_from "" p.

(** A regular file lies at [p] or on the way to it. *)
Definition occupied (fs : filesystem) (p : string) : Prop :=
  Exists (fun q => is_Some (files fs !! q)) (on_the_way p ++ [p]).

(** [os.makedirs(p, exist_ok=True)]: it makes [p] and every directory on
    the way to it, those that exist being left alone. It raises, here
    [None], for the empty path, when [p] is a regular file and when a
    regular file lies on the way to [p]. *)
Definition makedirs (p : string) (fs : filesystem) : option filesystem :=
  if PyStr.is_empty p then None
  else if decide (occupied fs p) then None
  else Some (mkFs (list_to_set (on_the_way p ++ [p]) ∪ dirs fs) (files fs)).

(** [open(p, "w").write(content)]; [None] when [p] is a directory. *)
Definition write_file (p content : string) (fs : filesystem) : option filesystem :=
  if decide (p ∈ dirs fs) then None
  else Some (mkFs (dirs fs) (<[ p := content ]> (files fs))).

(** ** The crawl engine *)

(** What a run does to the outside, in order: the lines it prints, the
    requests it sends and the files it writes. *)
Inductive event :=
  | Processing (depth : Z) (normalized_url : string)
  | HttpGet (r : request)
  | FailedDownload (normalized_url : string)
  | AlreadyVisited (final_url : string)
  | NoMainContent
  | WriteFile (filepath source markdown_text : string)
  | Saved (filepath : string).

(** How a call ends: it returns, or an exception leaves it. *)
Inductive outcome := Returned | Raised.

Definition newline : string := String (PyStr.chr 10) EmptyString.

(** The text written at lines 124 and 125. *)
Definition document (final_url markdown_text : string) : string :=
  "---" +:+ newline +:+ "source: " +:+ final_url +:+ newline +:+ "---"
  +:+ newline +:+ newline +:+ markdown_text.

Definition user_agent : string :=
  "Mozilla/5.0 (Windows NT 10.0; Win64; x64) Chrome/126 Safari/537.36".

Definition the_request (normalized_url : string) : request :=
  mkRequest normalized_url user_agent true 60.

Definition noise_tags : list string :=
  [ "nav"; "header"; "footer"; "aside"; "script"; "style" ].

Section Engine.
Context `{UrlLib} `{Collaborators}.

Record state := mkState {
  world : World;
  visited_urls : gset string;
  disk : filesystem;
  log : list event
}.

Definition emit (e : event) (st : state) : state :=
  mkState (world st) (visited_urls st) (disk st) (log st ++ [e]).

Definition set_world (w : World) (st : state) : state :=
  mkState w (visited_urls st) (disk st) (log st).

Definition set_disk (d : filesystem) (st : state) : state :=
  mkState (world st) (visited_urls st) d (log st).

Definition add_visited (u : string) (st : state) : state :=
  mkState (world st) ({[ u ]} ∪ visited_urls st) (disk st) (log st).

(** The content locator, lines 65 to 69. *)
Definition locate_main (soup : Soup) : option Element :=
  match soup_find soup (ByTag "main") with
  | Some e => Some e
  | None =>
      match soup_find soup (ByTagClass "div" "field-item") with
      | Some e => Some e
      | None => soup_find soup (ByTagClass "div" "content-block")
      end
  end.

(** The link loop, lines 79 to 93, with [links] as accumulator; [None]
    when [urljoin] or [urlparse] raises. *)
Fixpoint link_loop (final_url base_domain : string) (hrefs : list string)
    (links : list string) : option (list string) :=
  match hrefs with
  | [] => Some links
  | raw :: rest =>
      let href := PyStr.strip PyStr.is_space raw in
      if PyStr.is_empty href || PyStr.startswith "#" href
      then link_loop final_url base_domain rest links
      else
        match urljoin final_url href with
        | None => None
        | Some full_link =>
            match _normalize_url full_link with
            | None => None
            | Some norm_link =>
                match UrlParse.urlparse norm_link with
                | None => None
                | Some p =>
                    if negb (String.eqb (netloc p) base_domain)
                    then link_loop final_url base_domain rest links
                    else if String.eqb norm_link final_url
                    then link_loop final_url base_domain rest links
                    else link_loop final_url base_domain rest (links ++ [norm_link])
                end
            end
        end
  end.

(** Lines 76 to 93. *)
Definition extract_links (final_url : string) (main_content : Element)
    : option (list string) :=
  match UrlParse.urlparse final_url with
  | None => None
  | Some p => link_loop final_url (netloc p) (href_values main_content) []
  end.

(** Where the body of [fetch_and_save] stands when it reaches line 132:
    it has left ([Exit]), or it has saved the page and holds the links. *)
Inductive page_result :=
  | Exit (o : outcome) (st : state)
  | Persisted (final_url : string) (links : list string) (st : state).

(** Lines 105 to 130: folder, file name, write, visited mark. *)
Definition persist (self : MarkdownExtractor) (parent_folder : option string)
    (final_url markdown_text : string) (links : list string) (st : state)
    : page_result :=
  let folder := page_folder self parent_folder final_url in
  match makedirs folder (disk st) with
  | None => Exit Raised st
  | Some d1 =>
      let st := set_disk d1 st in
      match _filename_from_url final_url with
      | None => Exit Raised st
      | Some filename =>
          let filepath := choose_filepath folder filename in
          match makedirs (PosixPath.dirname filepath) (disk st) with
          | None => Exit Raised st
          | Some d2 =>
              let st := set_disk d2 st in
              match write_file filepath (document final_url markdown_text) (disk st) with
              | None => Exit Raised st
              | Some d3 =>
                  let st := emit (WriteFile filepath final_url markdown_text)
                                 (set_disk d3 st) in
                  let st := emit (Saved filepath) st in
                  Persisted final_url links (add_visited final_url st)
              end
          end
      end
  end.

(** Lines 54 to 130: what is done with a response. *)
Definition handle_response (self : MarkdownExtractor)
    (parent_folder : option string) (resp : response) (st : state)
    : page_result :=
  match _normalize_url (resp_url resp) with
  | None => Exit Raised st
  | Some final_url =>
      if decide (final_url ∈ visited_urls st)
      then Exit Returned (emit (AlreadyVisited final_url) st)
      else
        match locate_main (BeautifulSoup (resp_text resp)) with
        | None => Exit Returned (emit NoMainContent st)
        | Some main_content =>
            match extract_links final_url main_content with
            | None => Exit Raised st
            | Some links =>
                let cleaned := decompose_all noise_tags main_content in
                let markdown_text := markdownify cleaned in
                persist self parent_folder final_url markdown_text links st
            end
        end
  end.

(** Lines 38 to 130: everything [fetch_and_save] does before it follows
    links. *)
Definition process_page (self : MarkdownExtractor) (url : string)
    (depth : Z) (parent_folder : option string) (st : state) : page_result :=
  match _normalize_url url with
  | None => Exit Raised st
  | Some normalized_url =>
      let st := emit (Processing depth normalized_url) st in
      let '(w, r) := requests_get (world st) (the_request normalized_url) in
      let st := emit (HttpGet (the_request normalized_url)) (set_world w st) in
      match r with
      | None => Exit Returned (emit (FailedDownload normalized_url) st)
      | Some resp => handle_response self parent_folder resp st
      end
  end.

(** The [for link in links] loop of line 134 over a callee [f]; an
    exception in one call ends the loop. [None] is lack of fuel. *)
Fixpoint for_each (f : string -> state -> option (outcome * state))
    (links : list string) (st : state) : option (outcome * state) :=
  match links with
  | [] => Some (Returned, st)
  | link :: rest =>
      match f link st with
      | None => None
      | Some (Raised, st') => Some (Raised, st')
      | Some (Returned, st') => for_each f rest st'
      end
  end.

(** The body of [fetch_and_save] over its own recursive call. *)
Definition fetch_and_save_body (self : MarkdownExtractor)
    (recur : string -> Z -> option string -> state -> option (outcome * state))
    (url : string) (depth : Z) (parent_folder : option string) (st : state)
    : option (outcome * state) :=
  match process_page self url depth parent_folder st with
  | Exit o st' => Some (o, st')
  | Persisted final_url links st' =>
      if (depth <? max_depth self)%Z
      then for_each
             (fun link => recur link (depth + 1)%Z (Some (hash_prefix final_url)))
             links st'
      else Some (Returned, st')
  end.

(** [fetch_and_save] with a bound on the nesting of calls. *)
Fixpoint fetch_and_save_fuel (self : MarkdownExtractor) (fuel : nat)
    : string -> Z -> option string -> state -> option (outcome * state) :=
  match fuel with
  | O => fun _ _ _ _ => None
  | S fuel' => fetch_and_save_body self (fetch_and_save_fuel self fuel')
  end.

(** The nesting a call at [depth] can reach: one call per level up to
    [max_depth]. *)
Definition enough (self : MarkdownExtractor) (depth : Z) : nat :=
  S (Z.to_nat (max_depth self - depth)).

(** [self.fetch_and_save(url, depth, parent_folder)]: the fuelled
    function at a fuel that suffices (lemma [fuel_enough]: any larger fuel
    gives the same result, and never [None]). *)
Definition fetch_and_save (self : MarkdownExtractor) (url : string)
    (depth : Z) (parent_folder : option string) (st : state)
    : outcome * state :=
  match fetch_and_save_fuel self (enough self depth) url depth parent_folder st with
  | Some r => r
  | None => (Raised, st)
  end.

(** The loop of line 134 over [fetch_and_save] itself. *)
Fixpoint follow_links (self : MarkdownExtractor) (links : list string)
    (depth : Z) (parent_folder : option string) (st : state)
    : outcome * state :=
  match links with
  | [] => (Returned, st)
  | link :: rest =>
      match fetch_and_save self link depth parent_folder st with
      | (Raised, st') => (Raised, st')
      | (Returned, st') => follow_links self rest depth parent_folder st'
      end
  end.

(** [MarkdownExtractor(base_folder, max_depth)]: the object and the state
    it starts from; [None] when [os.makedirs] raises. *)
Definition init (base : string) (maxd : Z) (w : World) (fs : filesystem)
    : option (MarkdownExtractor * state) :=
  match makedirs base fs with
  | None => None
  | Some fs' => Some (mkExtractor base maxd, mkState w ∅ fs' [])
  end.

(** [main()] for the arguments [url], [--depth] and [--out]. *)
Definition main (url : string) (maxd : Z) (base : string) (w : World)
    (fs : filesystem) : option (outcome * state) :=
  match init base maxd w fs with
  | None => None
  | Some (self, st) => Some (fetch_and_save self url 0 None st)
  end.

(** Projections of a log. *)
Definition request_of (e : event) : option string :=
  match e with HttpGet r => Some (req_url r) | _ => None end.

Definition task_of (e : event) : option (Z * string) :=
  match e with Processing d u => Some (d, u) | _ => None end.

Definition written_of (e : event) : option (string * string) :=
  match e with WriteFile p u _ => Some (p, u) | _ => None end.

Definition requests_of (l : list event) : list string := omap request_of l.
Definition tasks_of (l : list event) : list (Z * string) := omap task_of l.
Definition writes_of (l : list event) : list (string * string) := omap written_of l.

(** The state a page leaves. *)
Definition state_of (r : page_result) : state :=
  match r with Exit _ st => st | Persisted _ _ st => st end.

(** What the loop of lines 79 to 93 does with one [href]: [None] when a
    library call raises, [Some None] when the href is passed over,
    [Some (Some link)] when [link] is appended. *)
Definition link_decision (final_url base_domain raw : string)
    : option (option string) :=
  let href := PyStr.strip PyStr.is_space raw in
  if PyStr.is_empty href || PyStr.startswith "#" href then Some None
  else
    match urljoin final_url href with
    | None => None
    | Some full_link =>
        match _normalize_url full_link with
        | None => None
        | Some norm_link =>
            match UrlParse.urlparse norm_link with
            | None => None
            | Some p =>
                if negb (String.eqb (netloc p) base_domain) then Some None
                else if String.eqb norm_link final_url then Some None
                else Some (Some norm_link)
            end
        end
    end.

(** The link one [href] contributes, if any. *)
Definition kept_link (final_url base_domain raw : string) : option string :=
  match link_decision final_url base_domain raw with
  | Some (Some link) => Some link
  | _ => None
  end.

(** What a call adds to the log, seen as tasks and requests. *)
Definition tasks_within (self : MarkdownExtractor) (d : Z) (st st' : state) : Prop :=
  exists new,
    log st' = log st ++ new
    /\ Forall (fun t => (d <= t.1 <= Z.max d (max_depth self))%Z) (tasks_of new)
    /\ requests_of new = (tasks_of new).*2.

(** What a call does to the visited set and to the files. *)
Definition writes_within (st st' : state) : Prop :=
  exists new,
    log st' = log st ++ new
    /\ visited_urls st' = visited_urls st ∪ list_to_set (writes_of new).*2
    /\ NoDup (writes_of new).*2
    /\ (forall u, u ∈ (writes_of new).*2 -> u ∉ visited_urls st)
    /\ (forall p, is_Some (files (disk st) !! p) -> is_Some (files (disk st') !! p))
    /\ (forall p c, files (disk st) !! p = Some c ->
          files (disk st') !! p = Some c \/ p ∈ (writes_of new).*1).

End Engine.

(** A library instance for closed examples: hosts in brackets and hosts
    outside ASCII are rejected, and a reference is resolved only when it is
    already absolute (a reference with a scheme replaces the base). *)
Definition has_scheme (url : string) : bool :=
  negb (PyStr.is_empty (fst (UrlParse.split_scheme url))).

Definition plain_urllib : UrlLib := {|
  urljoin := fun base url => if has_scheme url then Some url else None;
  check_bracketed_netloc := fun _ => false;
  checknetloc_nfkc := fun _ => false
|}.

(** ** A small web to run the engine on *)

Module Toy.
#[local] Existing Instance plain_urllib.

(** A page of the web: the address it ends at after redirects, the hrefs
    of the anchors of its [<main>] element, and the Markdown of that
    element. *)
Record toy_page := mkPage {
  page_final_url : string;
  page_hrefs : list string;
  page_markdown : string
}.

Definition url_root : string := "http://h/r".
Definition url_a : string := "http://h/a".
Definition url_index : string := "http://h/index".
Definition url_one : string :=
  "http://h/9084/standards-airworthiness-manual-chapter-533-engines".
Definition url_two : string :=
  "http://h/65228/standards-airworthiness-manual-chapter-533-engines".

Definition links_page : toy_page :=
  mkPage "http://h/links"
    [ "#top"; "  "; " http://h/a "; "http://other.example.com/x";
      "http://h/links/"; "http://h/a?q=1" ] "links".

Definition site : list (string * toy_page) :=
  [ (url_root, mkPage url_root [url_a] "root");
    (url_a, mkPage url_a [url_root] "a");
    ("http://h/p", mkPage "http://h/p" [] "p");
    ("http://h/links", links_page);
    (url_index, mkPage url_index [url_one; url_two] "index");
    (url_one, mkPage url_one [] "one");
    (url_two, mkPage url_two [] "two") ].

Fixpoint lookup_page (url : string) (pages : list (string * toy_page))
    : option toy_page :=
  match pages with
  | [] => None
  | (u, pg) :: rest => if String.eqb u url then Some pg else lookup_page url rest
  end.

(** The network keeps the requests it has received; the text of a
    response is the address of its page, which the parser looks up. *)
Definition toy_web : Collaborators := {|
  World := list request;
  Soup := option toy_page;
  Element := toy_page;
  requests_get := fun w r =>
    (w ++ [r],
     match lookup_page (req_url r) site with
     | Some pg => Some (mkResponse (page_final_url pg) (req_url r))
     | None => None
     end);
  BeautifulSoup := fun text => lookup_page text site;
  soup_find := fun soup sel =>
    match sel with
    | ByTag tag => if String.eqb tag "main" then soup else None
    | ByTagClass _ _ => None
    end;
  href_values := page_hrefs;
  decompose_all := fun _ e => e;
  markdownify := page_markdown
|}.

#[local] Existing Instance toy_web.

Definition depth_one : MarkdownExtractor := mkExtractor "output" 1.
Definition depth_two : MarkdownExtractor := mkExtractor "output" 2.

(** The state [MarkdownExtractor("output", ...)] starts from on an empty
    disk. *)
Definition fresh : state := mkState [] ∅ (mkFs {[ "output" ]} ∅) [].

Definition visited_a : state := mkState [] {[ url_a ]} (mkFs {[ "output" ]} ∅) [].

(** The state after the index page is saved, and after its first link. *)
Definition after_index : state :=
  state_of (process_page depth_one url_index 0 None fresh).

Definition after_one : state :=
  (follow_links depth_one [url_one] 1 (Some (hash_prefix url_index)) after_index).2.

Definition shared_path : string :=
  "output/e9d444c4/ed84288e/standards-airworthiness-manual-chapter-533-engines.md".

(** The state after the root is saved, and after its link is saved. *)
Definition after_root : state :=
  state_of (process_page depth_two url_root 0 None fresh).

Definition after_a : state :=
  state_of (process_page depth_two url_a 1 (Some (hash_prefix url_root)) after_root).

Definition sample_parse : ParseResult :=
  mkParseResult "http" "h" "/p/" "" "x=1" "f".

Definition bare_parse : ParseResult := mkParseResult "http" "host" "/" "" "" "".

Definition sample_extractor : MarkdownExtractor := mkExtractor "output" 1.

End Toy.

(** ** Further definitions: tokens, a second web, the eCFR scripts *)

(** A lowercase hexadecimal digit. *)
Definition is_hex_char (c : ascii) : bool :=
  PyStr.is_digit c || ((97 <=? PyStr.ord c)%nat && (PyStr.ord c <=? 102)%nat).

(** A tail that is empty or opens a query or a fragment. *)
Definition opens_tail (t : string) : Prop :=
  t = "" \/ exists c t', t = String c t' /\ PyStr.char_in "?#" c = true.

(** A second small web, whose pages say under which selector, if any,
    their content is found. *)
Module Pages.
#[local] Existing Instance plain_urllib.

Record marked_page := mkMarked {
  marked_final_url : string;
  marked_selector : option selector;
  marked_hrefs : list string;
  marked_markdown : string
}.

Definition selector_eqb (a b : selector) : bool :=
  match a, b with
  | ByTag t, ByTag t' => String.eqb t t'
  | ByTagClass t c, ByTagClass t' c' => String.eqb t t' && String.eqb c c'
  | _, _ => false
  end.

Definition url_home : string := "http://h/home".
Definition url_field : string := "http://h/field".
Definition url_bare : string := "http://h/bare".

Definition pages : list (string * marked_page) :=
  [ (url_home,
     mkMarked url_home (Some (ByTag "main")) [url_field; url_bare] "home");
    (url_field,
     mkMarked url_field (Some (ByTagClass "div" "field-item")) [] "field");
    (url_bare, mkMarked url_bare None [url_home] "bare") ].

Fixpoint lookup_marked (url : string) (l : list (string * marked_page))
    : option marked_page :=
  match l with
  | [] => None
  | (u, pg) :: rest => if String.eqb u url then Some pg else lookup_marked url rest
  end.

Definition marked_web : Collaborators := {|
  World := list request;
  Soup := option marked_page;
  Element := marked_page;
  requests_get := fun w r =>
    (w ++ [r],
     match lookup_marked (req_url r) pages with
     | Some pg => Some (mkResponse (marked_final_url pg) (req_url r))
     | None => None
     end);
  BeautifulSoup := fun text => lookup_marked text pages;
  soup_find := fun soup sel =>
    match soup with
    | Some pg =>
        match marked_selector pg with
        | Some s => if selector_eqb s sel then Some pg else None
        | None => None
        end
    | None => None
    end;
  href_values := marked_hrefs;
  decompose_all := fun _ e => e;
  markdownify := marked_markdown
|}.

#[local] Existing Instance marked_web.

Definition crawler : MarkdownExtractor := mkExtractor "output" 1.

Definition start : state := mkState [] ∅ (mkFs {[ "output" ]} ∅) [].

(** A disk on which a regular file has the path of the folder of the
    page [url_field]. *)
Definition blocked : state :=
  mkState [] ∅
    (mkFs {[ "output" ]} {[ page_folder crawler None url_field := "occupied" ]})
    [].

(** A disk on which a regular file has the path of the folder of a parent
    page. *)
Definition blocked_above : state :=
  mkState [] ∅ (mkFs {[ "output" ]} {[ "output/0a1b2c3d" := "occupied" ]}) [].

End Pages.

Section EngineExtraDefs.
Context `{UrlLib} `{Collaborators}.

(** A parent folder as [fetch_and_save] receives it: none, or a token of
    at most 8 characters that is not an absolute path. *)
Definition token_like (parent_folder : option string) : Prop :=
  match parent_folder with
  | None => True
  | Some t => PyStr.startswith "/" t = false /\ (String.length t <= 8)%nat
  end.

(** A path under the base folder, of bounded length. *)
Definition under_base (self : MarkdownExtractor) (p : string) : Prop :=
  PyStr.initial (base_folder self) p
  /\ (String.length p <= Nat.max 240 (String.length (base_folder self) + 32))%nat.

(** What a call writes, and what it leaves as it was. *)
Definition writes_under (self : MarkdownExtractor) (st st' : state) : Prop :=
  exists new,
    log st' = log st ++ new
    /\ Forall (fun w => under_base self w.1) (writes_of new)
    /\ (forall p, p ∉ (writes_of new).*1 ->
          files (disk st') !! p = files (disk st) !! p).

(** The visited URLs that a call adds are canonical. *)
Definition visits_canonical (st st' : state) : Prop :=
  forall v, v ∈ visited_urls st' ->
    v ∈ visited_urls st \/ exists raw, _normalize_url raw = Some v.

End EngineExtraDefs.

(** ** eCFRconAPI.py: identifiers, request parameters, the entry limit *)

Module ECFR.
Import PyStr.

(** Line 130 of [main]:
    [identifier.split(".", 1) if "." in identifier else (identifier, None)]. *)
Definition split_identifier (identifier : string) : string * option string :=
  if any (is_char ".") identifier
  then let '(a, b) := break (is_char ".") identifier in (a, Some (tail b))
  else (identifier, None).

(** The [params] dictionary of [fetch_full_text], lines 41 to 43, in
    insertion order; [if section] fails for [None] and for the empty
    string. *)
Definition full_text_params (part : string) (section : option string)
    : list (string * string) :=
  ("part", part)
  :: match section with
     | Some s => if is_empty s then [] else [("section", part +:+ "." +:+ s)]
     | None => []
     end.

(** The parameters sent for an entry: line 130 then lines 41 to 43. *)
Definition params_of_identifier (identifier : string) : list (string * string) :=
  let '(part, section) := split_identifier identifier in
  full_text_params part section.

(** [l[:k]] for a Python integer [k]. *)
Definition slice_to {A : Type} (k : Z) (l : list A) : list A :=
  if (0 <=? k)%Z then firstn (Z.to_nat k) l
  else firstn (Z.to_nat (Z.of_nat (List.length l) + k)) l.

(** Lines 105 and 106 of [main]: [if args.max: entries = entries[:args.max]];
    [args.max] is [None] or an integer, and [0] is false. *)
Definition limit_entries {A : Type} (max : option Z) (entries : list A) : list A :=
  match max with
  | None => entries
  | Some m => if (m =? 0)%Z then entries else slice_to m entries
  end.

End ECFR.

(** ** xml2md.py: the list markers of [indentar_html_listas] *)

Module ListMarkers.
Import PyStr.

(** The class [[a-z0-9A-Z]]. *)
Definition is_alnum (c : ascii) : bool := is_digit c || is_ascii_alpha c.

Definition is_line_feed (c : ascii) : bool := (ord c =? 10)%nat.

(** [regex.match(txt)] and [m.groups()] for the pattern of line 23: at
    the start of the text an opening parenthesis, the group
    [[a-z0-9A-Z]+], a closing parenthesis, [\s*], and a last group of any
    characters but line feeds. So: the longest run of letters and digits,
    which must not be empty and must end at the closing parenthesis, the
    longest run of white space, then everything up to the first line
    feed. *)
Definition match_marker (txt : string) : option (string * string) :=
  match txt with
  | String "(" rest =>
      let '(label, after) := break (fun c => negb (is_alnum c)) rest in
      if is_empty label then None
      else
        match after with
        | String ")" after' =>
            Some (label, fst (break is_line_feed (lstrip is_space after')))
        | _ => None
        end
  | _ => None
  end.

(** Line 41: [f"({label}) {resto}"]. *)
Definition li_txt (label resto : string) : string :=
  "(" +:+ label +:+ ") " +:+ resto.

(** Line 40: [nivel = len(label)]. *)
Definition nivel (label : string) : nat := String.length label.

End ListMarkers.

(** * Tests of the executable model *)

Example md5_empty : MD5.hexdigest "" = "d41d8cd98f00b204e9800998ecf8427e".
Proof. vm_compute. reflexivity. Qed.

Example md5_abc : MD5.hexdigest "abc" = "900150983cd24fb0d6963f7d28e17f72".
Proof. vm_compute. reflexivity. Qed.

Example md5_two_blocks :
  MD5.hexdigest
    "12345678901234567890123456789012345678901234567890123456789012345678901234567890"
  = "57edf4a22be3c955ac49da2e2107b67a".
Proof. vm_compute. reflexivity. Qed.

Module UrlTests.
#[local] Existing Instance plain_urllib.

Example normalize_params_then_slash :
  _normalize_url "http://h/a;b/" = Some "http://h/a;b".
Proof. reflexivity. Qed.

Example urlparse_inner_params :
  UrlParse.urlparse "http://h/a;b/c;d?q=1#f"
  = Some (mkParseResult "http" "h" "/a;b/c" "d" "q=1" "f").
Proof. reflexivity. Qed.

Example urlparse_upper_scheme :
  UrlParse.urlparse (" HT" +:+ String (PyStr.chr 9) "TP://H/P")
  = Some (mkParseResult "http" "H" "/P" "" "" "").
Proof. reflexivity. Qed.

Example urlparse_no_scheme :
  UrlParse.urlparse "1http://h"
  = Some (mkParseResult "" "" "1http://h" "" "" "").
Proof. reflexivity. Qed.

Example urlparse_opaque :
  UrlParse.urlparse "x:y;z/" = Some (mkParseResult "x" "" "y;z/" "" "" "").
Proof. reflexivity. Qed.

Example filename_index : _filename_from_url "http://h/" = Some "index.md".
Proof. reflexivity. Qed.

Example filename_sanitized :
  _filename_from_url "http://h/a/b:c*d/" = Some "a_b_c_d.md".
Proof. reflexivity. Qed.

End UrlTests.

(** * Facts about the string primitives *)

Module PyStrFacts.
Import PyStr.

Lemma append_empty_r (s : string) : s +:+ "" = s.
Proof. induction s as [|c s IH]; simpl; [reflexivity | now rewrite IH]. Qed.

Lemma append_assoc (a b c : string) : (a +:+ b) +:+ c = a +:+ (b +:+ c).
Proof. induction a as [|x a IH]; simpl; [reflexivity | now rewrite IH]. Qed.

Lemma length_append (a b : string) :
  String.length (a +:+ b) = (String.length a + String.length b)%nat.
Proof. induction a as [|x a IH]; simpl; [reflexivity | now rewrite IH]. Qed.

Lemma is_empty_true (s : string) : is_empty s = true <-> s = "".
Proof. destruct s; simpl; split; congruence. Qed.

Lemma is_empty_false (s : string) : is_empty s = false <-> s <> "".
Proof. destruct s; simpl; split; congruence. Qed.

Lemma any_app p (a b : string) : any p (a +:+ b) = any p a || any p b.
Proof.
  induction a as [|x a IH]; simpl; [reflexivity|].
  now rewrite IH, orb_assoc.
Qed.

Lemma all_app p (a b : string) : all p (a +:+ b) = all p a && all p b.
Proof.
  induction a as [|x a IH]; simpl; [reflexivity|].
  now rewrite IH, andb_assoc.
Qed.

Lemma any_false_app p (a b : string) :
  any p (a +:+ b) = false <-> any p a = false /\ any p b = false.
Proof. rewrite any_app. apply orb_false_iff. Qed.

Lemma all_implies_none (p q : ascii -> bool) (s : string) :
  (forall c, p c = true -> q c = false) -> all p s = true -> any q s = false.
Proof.
  intros Hpq. induction s as [|c s IH]; simpl; [reflexivity|].
  intros [Hc Hs]%andb_true_iff. now rewrite (Hpq c Hc), IH.
Qed.

(** *** break *)

Lemma break_app p (s a b : string) : break p s = (a, b) -> s = a +:+ b.
Proof.
  revert a b. induction s as [|c s IH]; simpl; intros a b E.
  - now inversion E.
  - destruct (p c).
    + now inversion E.
    + destruct (break p s) as [a' b'] eqn:E'. inversion E; subst.
      simpl. f_equal. now apply IH.
Qed.

Lemma break_fst_none p (s a b : string) : break p s = (a, b) -> any p a = false.
Proof.
  revert a b. induction s as [|c s IH]; simpl; intros a b E.
  - now inversion E.
  - destruct (p c) eqn:Hc.
    + now inversion E.
    + destruct (break p s) as [a' b'] eqn:E'. inversion E; subst.
      simpl. rewrite Hc. simpl. eapply IH. reflexivity.
Qed.

Lemma break_snd_head p (s a b : string) :
  break p s = (a, b) -> b = "" \/ exists c b', b = String c b' /\ p c = true.
Proof.
  revert a b. induction s as [|c s IH]; simpl; intros a b E.
  - inversion E. now left.
  - destruct (p c) eqn:Hc.
    + inversion E; subst. right. eauto.
    + destruct (break p s) as [a' b'] eqn:E'. inversion E; subst.
      eapply IH. reflexivity.
Qed.

Lemma break_snd_empty p (s a b : string) :
  break p s = (a, b) -> any p s = false -> a = s /\ b = "".
Proof.
  revert a b. induction s as [|c s IH]; simpl; intros a b E Hs.
  - now inversion E.
  - apply orb_false_iff in Hs as [Hc Hs]. rewrite Hc in E.
    destruct (break p s) as [a' b'] eqn:E'. inversion E; subst.
    destruct (IH a' b eq_refl Hs) as [-> ->]. now split.
Qed.

(** Breaking a string that is known to be [a] followed by a tail that is
    empty or begins with a delimiter gives back [a] and the tail. *)
Lemma break_exact p (a b : string) :
  any p a = false ->
  (b = "" \/ exists c b', b = String c b' /\ p c = true) ->
  break p (a +:+ b) = (a, b).
Proof.
  intros Ha Hb. induction a as [|x a IH]; simpl in *.
  - destruct Hb as [-> | (c & b' & -> & Hc)]; simpl; [reflexivity|].
    now rewrite Hc.
  - apply orb_false_iff in Ha as [Hx Ha]. rewrite Hx, (IH Ha). reflexivity.
Qed.

(** *** rbreak *)

Lemma rbreak_app p (s a b : string) : rbreak p s = (a, b) -> s = a +:+ b.
Proof.
  revert a b. induction s as [|c s IH]; simpl; intros a b E.
  - now inversion E.
  - destruct (rbreak p s) as [a' b'] eqn:E'.
    specialize (IH a' b' eq_refl). subst s.
    destruct a' as [|y a']; simpl in E.
    + destruct (p c); inversion E; reflexivity.
    + inversion E. reflexivity.
Qed.

Lemma rbreak_snd_none p (s a b : string) : rbreak p s = (a, b) -> any p b = false.
Proof.
  revert a b. induction s as [|c s IH]; simpl; intros a b E.
  - now inversion E.
  - destruct (rbreak p s) as [a' b'] eqn:E'.
    specialize (IH a' b' eq_refl).
    destruct a' as [|y a']; simpl in E.
    + destruct (p c) eqn:Hc; inversion E; subst; simpl; [assumption|].
      now rewrite Hc.
    + inversion E; subst. assumption.
Qed.

Lemma rbreak_fst_empty p (s a b : string) :
  rbreak p s = (a, b) -> a = "" -> any p s = false.
Proof.
  revert a b. induction s as [|c s IH]; simpl; intros a b E Ha.
  - reflexivity.
  - destruct (rbreak p s) as [a' b'] eqn:E'.
    destruct a' as [|y a']; simpl in E.
    + destruct (p c) eqn:Hc; inversion E; subst; [discriminate|].
      simpl. eapply IH; eauto.
    + inversion E; subst. discriminate.
Qed.

(** *** rstrip, lstrip, remove *)

Lemma rstrip_prefix p (s : string) : exists t, s = rstrip p s +:+ t /\ all p t = true.
Proof.
  induction s as [|c s (t & Ht & Hall)]; simpl.
  - exists "". split; reflexivity.
  - destruct (p c) eqn:Hc; simpl.
    + destruct (rstrip p s) eqn:Er; simpl.
      * exists (String c t). simpl in Ht. subst s. simpl. now rewrite Hc, Hall.
      * exists t. split; [|assumption]. simpl. f_equal. exact Ht.
    + exists t. split; [|assumption]. simpl. f_equal. exact Ht.
Qed.

Lemma endswith_app_nonempty c (a b : string) :
  b <> "" -> endswith c (a +:+ b) = endswith c b.
Proof.
  intros Hb. induction a as [|x a IH]; simpl; [reflexivity|].
  rewrite IH. destruct (a +:+ b) eqn:E; [|reflexivity].
  destruct a; simpl in E; [congruence | discriminate].
Qed.

Lemma endswith_cons c x (s : string) :
  s <> "" -> endswith c (String x s) = endswith c s.
Proof. destruct s; [congruence | reflexivity]. Qed.

Lemma rstrip_not_endswith c (s : string) :
  endswith c (rstrip (is_char c) s) = false.
Proof.
  induction s as [|x s IH]; simpl; [reflexivity|].
  destruct (is_char c x) eqn:Hx; simpl.
  - destruct (rstrip (is_char c) s) eqn:Er; simpl; [reflexivity|].
    simpl in IH. exact IH.
  - destruct (rstrip (is_char c) s) eqn:Er; simpl.
    + unfold is_char in Hx. rewrite Ascii.eqb_sym. exact Hx.
    + simpl in IH. exact IH.
Qed.

Lemma rstrip_fixed c (s : string) :
  endswith c s = false -> rstrip (is_char c) s = s.
Proof.
  induction s as [|x s IH]; simpl; [reflexivity|].
  destruct s as [|y s].
  - simpl. intros Hx. unfold is_char. rewrite Ascii.eqb_sym, Hx. reflexivity.
  - intros Hs. rewrite (IH Hs). simpl. now rewrite andb_false_r.
Qed.

Lemma rstrip_idem c (s : string) :
  rstrip (is_char c) (rstrip (is_char c) s) = rstrip (is_char c) s.
Proof. apply rstrip_fixed, rstrip_not_endswith. Qed.

Lemma rstrip_all p (s : string) : all p s = true -> rstrip p s = "".
Proof.
  induction s as [|x s IH]; simpl; [reflexivity|].
  intros [Hx Hs]%andb_true_iff. now rewrite (IH Hs), Hx.
Qed.

Lemma rstrip_app p (a b : string) :
  rstrip p (a +:+ b) =
  if is_empty (rstrip p b) then rstrip p a else a +:+ rstrip p b.
Proof.
  induction a as [|x a IH]; simpl.
  - destruct (rstrip p b); reflexivity.
  - rewrite IH. destruct (rstrip p b) eqn:Eb; simpl; [reflexivity|].
    destruct a; simpl; now rewrite andb_false_r.
Qed.

Lemma rstrip_none_last c (a : string) :
  a <> "" -> any (is_char c) a = false -> rstrip (is_char c) a = a.
Proof.
  intros Ha Hn. apply rstrip_fixed.
  induction a as [|x a IH]; [congruence|].
  simpl in Hn. apply orb_false_iff in Hn as [Hx Hn].
  destruct a as [|y a].
  - simpl. unfold is_char in Hx. now rewrite Ascii.eqb_sym.
  - rewrite endswith_cons by discriminate. apply IH; [discriminate | exact Hn].
Qed.

Lemma any_rstrip q p (s : string) : any q s = false -> any q (rstrip p s) = false.
Proof.
  intros Hs. destruct (rstrip_prefix p s) as (t & E & _).
  rewrite E in Hs. now apply any_false_app in Hs as [? _].
Qed.

Lemma startswith_rstrip c d (s : string) :
  s = "" \/ startswith c s = true ->
  rstrip (is_char d) s = "" \/ startswith c (rstrip (is_char d) s) = true.
Proof.
  intros [-> | Hs]; [now left|].
  destruct s as [|x s]; [discriminate|]. simpl in *.
  destruct (is_char d x && is_empty (rstrip (is_char d) s)); [now left | now right].
Qed.

Lemma lstrip_fixed p c (s : string) : p c = false -> lstrip p (String c s) = String c s.
Proof. intros Hc. simpl. now rewrite Hc. Qed.

Lemma remove_fixed p (s : string) : any p s = false -> remove p s = s.
Proof.
  induction s as [|c s IH]; simpl; [reflexivity|].
  intros [Hc Hs]%orb_false_iff. now rewrite Hc, (IH Hs).
Qed.

Lemma any_remove p (s : string) : any p (remove p s) = false.
Proof.
  induction s as [|c s IH]; simpl; [reflexivity|].
  destruct (p c) eqn:Hc; simpl; [assumption | now rewrite Hc].
Qed.

(** *** take, drop, map *)

Lemma take_drop n (s : string) : s = take n s +:+ drop n s.
Proof.
  revert s. induction n as [|n IH]; intros [|c s]; simpl; try reflexivity.
  f_equal. apply IH.
Qed.

Lemma length_take n (s : string) : (String.length (take n s) <= n)%nat.
Proof.
  revert s. induction n as [|n IH]; intros [|c s]; simpl; try lia.
  specialize (IH s). lia.
Qed.

Lemma length_drop n (s : string) :
  String.length (drop n s) = (String.length s - n)%nat.
Proof.
  revert s. induction n as [|n IH]; intros [|c s]; simpl; try lia. apply IH.
Qed.

Lemma length_last n (s : string) : (String.length (last n s) <= n)%nat.
Proof. unfold last. rewrite length_drop. lia. Qed.

Lemma length_map f (s : string) : String.length (map f s) = String.length s.
Proof. induction s as [|c s IH]; simpl; [reflexivity | now rewrite IH]. Qed.

Lemma all_map (p : ascii -> bool) f (s : string) :
  (forall c, p (f c) = true) -> all p (map f s) = true.
Proof.
  intros Hf. induction s as [|c s IH]; simpl; [reflexivity|].
  now rewrite Hf, IH.
Qed.

Lemma map_fixed f (s : string) : (forall c, f (f c) = f c) -> map f (map f s) = map f s.
Proof.
  intros Hf. induction s as [|c s IH]; simpl; [reflexivity|].
  now rewrite Hf, IH.
Qed.

Lemma all_map_preserved (p : ascii -> bool) f (s : string) :
  (forall c, p c = true -> p (f c) = true) -> all p s = true -> all p (map f s) = true.
Proof.
  intros Hf. induction s as [|c s IH]; simpl; [reflexivity|].
  intros [Hc Hs]%andb_true_iff. now rewrite (Hf c Hc), (IH Hs).
Qed.

End PyStrFacts.

(** * Facts about the URL parser and the normalizer *)

Module UrlFacts.
Import PyStr PyStrFacts UrlParse.

Ltac all_chars c := destruct c as [[] [] [] [] [] [] [] []]; vm_compute; congruence.

Lemma scheme_char_not_unsafe c : is_scheme_char c = true -> is_unsafe c = false.
Proof. all_chars c. Qed.

Lemma scheme_char_not_delim c : is_scheme_char c = true -> char_in ":/?#;" c = false.
Proof. all_chars c. Qed.

Lemma alpha_not_c0 c : is_ascii_alpha c = true -> is_c0_or_space c = false.
Proof. all_chars c. Qed.

Lemma lower_char_idem c : lower_char (lower_char c) = lower_char c.
Proof. all_chars c. Qed.

Lemma lower_char_scheme c : is_scheme_char c = true -> is_scheme_char (lower_char c) = true.
Proof. all_chars c. Qed.

Lemma lower_char_alpha c : is_ascii_alpha c = true -> is_ascii_alpha (lower_char c) = true.
Proof. all_chars c. Qed.

Lemma char_in_delim_split (c : ascii) :
  char_in ":/?#;" c = false ->
  is_char ":" c = false /\ is_char "/" c = false /\ is_char "?" c = false
  /\ is_char "#" c = false /\ is_char ";" c = false.
Proof.
  unfold is_char. simpl. rewrite !orb_false_iff. tauto.
Qed.


Lemma initial_refl s : initial s s.
Proof. exists "". now rewrite append_empty_r. Qed.

Lemma initial_trans a b c : initial a b -> initial b c -> initial a c.
Proof. intros [t ->] [t' ->]. exists (t +:+ t'). apply append_assoc. Qed.

Lemma initial_none q a s : initial a s -> any q s = false -> any q a = false.
Proof. intros [t ->] Hs. now apply any_false_app in Hs as [? _]. Qed.

Lemma initial_head a s c :
  initial a s -> startswith c s = true -> a = "" \/ startswith c a = true.
Proof.
  intros [t ->] Hs. destruct a as [|x a]; [now left | right]. exact Hs.
Qed.

Lemma initial_of_empty a : initial a "" -> a = "".
Proof. intros [t E]. destruct a; [reflexivity | discriminate]. Qed.

Lemma split_once_initial c s a b : split_once c s = (a, b) -> initial a s.
Proof.
  unfold split_once. destruct (break (is_char c) s) as [a' b'] eqn:E.
  apply break_app in E. destruct b'; simpl; intros [= <- <-].
  - apply initial_refl.
  - now exists (String a0 b').
Qed.

Lemma split_once_none c s a b : split_once c s = (a, b) -> any (is_char c) a = false.
Proof.
  unfold split_once. destruct (break (is_char c) s) as [a' b'] eqn:E.
  pose proof (break_fst_none _ _ _ _ E) as Ha.
  apply break_app in E. destruct b'; simpl; intros [= <- <-]; [|exact Ha].
  subst s. now rewrite append_empty_r.
Qed.

Lemma split_once_head c s a b :
  split_once c s = (a, b) -> startswith c s = true -> a = "".
Proof.
  unfold split_once. destruct s as [|x s]; [discriminate|]. simpl.
  intros E Hx. unfold is_char in E. rewrite Ascii.eqb_sym, Hx in E.
  simpl in E. now inversion E.
Qed.

Lemma split_once_fixed c s : any (is_char c) s = false -> split_once c s = (s, "").
Proof.
  intros Hs. unfold split_once. destruct (break (is_char c) s) as [a b] eqn:E.
  destruct (break_snd_empty _ _ _ _ E Hs) as [-> ->]. reflexivity.
Qed.

Lemma valid_scheme_lower pre :
  valid_scheme pre = true -> valid_scheme (lower pre) = true.
Proof.
  destruct pre as [|c0 pre]; [discriminate|]. unfold lower. simpl.
  intros [Ha [H0 Hs]%andb_true_iff]%andb_true_iff.
  rewrite (lower_char_alpha _ Ha), (lower_char_scheme _ H0). simpl.
  apply all_map_preserved; [apply lower_char_scheme | exact Hs].
Qed.

Lemma split_scheme_cases url s rest :
  split_scheme url = (s, rest) ->
  (s = "" /\ rest = url)
  \/ (valid_scheme s = true /\ lower s = s /\ exists pre x, url = pre +:+ String x rest).
Proof.
  unfold split_scheme. destruct (break (is_char ":") url) as [pre r] eqn:E.
  apply break_app in E.
  destruct pre as [|c0 pre]; [intros [= <- <-]; now left|].
  destruct r as [|x r]; [intros [= <- <-]; now left|].
  destruct (is_ascii_alpha c0 && all is_scheme_char (String c0 pre)) eqn:V;
    intros [= <- <-]; [right | now left].
  split; [apply valid_scheme_lower; exact V|].
  split; [apply map_fixed, lower_char_idem|].
  exists (String c0 pre), x. subst url. reflexivity.
Qed.

Lemma valid_scheme_head s :
  valid_scheme s = true ->
  exists c0 s', s = String c0 s' /\ is_ascii_alpha c0 = true
                /\ all is_scheme_char s = true.
Proof.
  destruct s as [|c0 s']; [discriminate|]. simpl.
  intros [Ha Hs]%andb_true_iff. eauto.
Qed.

(** What [urlsplit] guarantees about its results. *)
Lemma urlsplit_facts `{UrlLib} u s n p q f :
  urlsplit u = Some (s, n, p, q, f) ->
  (s = "" \/ (valid_scheme s = true /\ lower s = s))
  /\ any is_unsafe n = false /\ any is_unsafe p = false
  /\ any (char_in "/?#") n = false
  /\ netloc_ok n = true
  /\ (n <> "" -> p = "" \/ startswith "/" p = true)
  /\ any (is_char "#") p = false /\ any (is_char "?") p = false.
Proof.
  unfold urlsplit.
  set (u1 := remove is_unsafe (lstrip is_c0_or_space u)).
  assert (U1 : any is_unsafe u1 = false) by apply any_remove.
  destruct (split_scheme u1) as [s0 u2] eqn:Es.
  assert (U2 : any is_unsafe u2 = false).
  { destruct (split_scheme_cases _ _ _ Es) as [[_ ->] | (_ & _ & pre & x & E)]; [exact U1|].
    rewrite E in U1. apply any_false_app in U1 as [_ U1]. simpl in U1.
    now apply orb_false_iff in U1 as [_ ?]. }
  destruct (if String.eqb (take 2 u2) "//" then _splitnetloc u2 else ("", u2))
    as [n0 u3] eqn:En.
  destruct (netloc_ok n0) eqn:Hok; [|discriminate].
  destruct (split_once "#" u3) as [u4 f0] eqn:Ef.
  destruct (split_once "?" u4) as [p0 q0] eqn:Eq.
  intros [= <- <- <- <- <-].
  pose proof (split_once_initial _ _ _ _ Ef) as I4.
  pose proof (split_once_initial _ _ _ _ Eq) as I5.
  pose proof (initial_trans _ _ _ I5 I4) as I3.
  assert (N : any is_unsafe n0 = false /\ any is_unsafe u3 = false
              /\ any (char_in "/?#") n0 = false
              /\ (n0 <> "" -> u3 = "" \/ exists c r, u3 = String c r /\ char_in "/?#" c = true)).
  { destruct (String.eqb (take 2 u2) "//"); [|inversion En; subst; repeat split; auto; congruence].
    unfold _splitnetloc in En.
    pose proof (break_app _ _ _ _ En) as E.
    pose proof (break_fst_none _ _ _ _ En) as F.
    pose proof (break_snd_head _ _ _ _ En) as G.
    rewrite (take_drop 2 u2) in U2. apply any_false_app in U2 as [_ U2].
    rewrite E in U2. apply any_false_app in U2 as [? ?]. repeat split; auto. }
  destruct N as (N1 & N2 & N3 & N4).
  split.
  { destruct (split_scheme_cases _ _ _ Es) as [[-> _] | (? & ? & _)]; auto. }
  split; [exact N1|]. split; [exact (initial_none _ _ _ I3 N2)|].
  split; [exact N3|]. split; [exact Hok|]. split.
  { intros Hn. destruct (N4 Hn) as [-> | (c & r & -> & Hc)].
    - left. apply initial_of_empty in I3. exact I3.
    - simpl in Hc. rewrite orb_false_r in Hc.
      apply orb_true_iff in Hc as [Hc | Hc%orb_true_iff].
      + apply (initial_head _ _ "/" I3). simpl. exact Hc.
      + left. destruct Hc as [Hc | Hc].
        * destruct (initial_head _ _ "?" I4) as [-> | H4]; [exact Hc| |].
          -- now apply initial_of_empty in I5.
          -- exact (split_once_head _ _ _ _ Eq H4).
        * rewrite (split_once_head _ _ _ _ Ef) in I5 by exact Hc.
          now apply initial_of_empty in I5. }
  split.
  - exact (initial_none _ _ _ I5 (split_once_none _ _ _ _ Ef)).
  - exact (split_once_none _ _ _ _ Eq).
Qed.



Lemma any_weaken (p q : ascii -> bool) (s : string) :
  (forall c, q c = true -> p c = true) -> any p s = false -> any q s = false.
Proof.
  intros Hqp. induction s as [|c s IH]; simpl; [reflexivity|].
  intros [Hc Hs]%orb_false_iff. rewrite (IH Hs), orb_false_r.
  destruct (q c) eqn:Hq; [|reflexivity]. now rewrite (Hqp c Hq) in Hc.
Qed.

Lemma splitparams_initial url a b : _splitparams url = (a, b) -> initial a url.
Proof.
  unfold _splitparams. destruct (any (is_char "/") url).
  - destruct (rbreak (is_char "/") url) as [head seg] eqn:Er.
    destruct (break (is_char ";") seg) as [a' b'] eqn:Eb.
    apply rbreak_app in Er. apply break_app in Eb.
    destruct b'; simpl; intros [= <- <-]; [apply initial_refl|].
    exists (String a0 b'). subst. now rewrite append_assoc.
  - destruct (break (is_char ";") url) as [a' b'] eqn:Eb.
    apply break_app in Eb.
    destruct b'; simpl; intros [= <- <-].
    + exists (drop (String.length url - 1) url). apply take_drop.
    + now exists (String a0 b').
Qed.

Lemma splitparams_fixed url :
  any (is_char "/") url = true ->
  any (is_char ";") (last_segment url) = false ->
  _splitparams url = (url, "").
Proof.
  intros Hs Hseg. unfold _splitparams, last_segment in *. rewrite Hs.
  destruct (rbreak (is_char "/") url) as [head seg]. simpl in Hseg.
  destruct (break (is_char ";") seg) as [a b] eqn:Eb.
  now destruct (break_snd_empty _ _ _ _ Eb Hseg) as [_ ->].
Qed.

Section WithLibrary.
Context `{UrlLib}.

Lemma well_split_initial s n p p' :
  well_split s n p -> initial p' p -> well_split s n p'.
Proof.
  intros [] I. split; auto.
  - exact (initial_none _ _ _ I ws_path_safe0).
  - intros Hn. destruct (ws_path_head0 Hn) as [-> | Hp].
    + left. now apply initial_of_empty in I.
    + exact (initial_head _ _ _ I Hp).
  - exact (initial_none _ _ _ I ws_path_fragment0).
  - exact (initial_none _ _ _ I ws_path_query0).
Qed.

Lemma well_split_rstrip s n p :
  well_split s n p -> well_split s n (rstrip (is_char "/") p).
Proof.
  intros W. apply (well_split_initial _ _ _ _ W).
  destruct (rstrip_prefix (is_char "/") p) as (t & E & _). now exists t.
Qed.

Lemma urlparse_well_split u p :
  urlparse u = Some p -> well_split (scheme p) (netloc p) (path p).
Proof.
  unfold urlparse. destruct (urlsplit u) as [[[[[s n] p0] q] f]|] eqn:E; [|discriminate].
  apply urlsplit_facts in E as (? & ? & ? & ? & ? & ? & ? & ?).
  assert (W : well_split s n p0) by (split; assumption).
  destruct (in_uses_params s && any (is_char ";") p0).
  - destruct (_splitparams p0) as [p1 pa] eqn:Ep. intros [= <-]. simpl.
    exact (well_split_initial _ _ _ _ W (splitparams_initial _ _ _ Ep)).
  - intros [= <-]. exact W.
Qed.


Lemma rstrip_app_nonempty p (a b : string) :
  rstrip p b <> "" -> rstrip p (a +:+ b) = a +:+ rstrip p b.
Proof.
  intros Hb. rewrite rstrip_app. now apply is_empty_false in Hb as ->.
Qed.

Lemma rstrip_after_host n p :
  n <> "" -> any (char_in "/?#") n = false ->
  rstrip (is_char "/") (n +:+ p) = n +:+ rstrip (is_char "/") p.
Proof.
  intros Hn Hd. rewrite rstrip_app.
  destruct (rstrip (is_char "/") p) eqn:Ep; simpl; [|reflexivity].
  rewrite append_empty_r. apply rstrip_none_last; [exact Hn|].
  revert Hd. apply any_weaken. intros c Hc. unfold is_char in Hc.
  simpl. now rewrite Hc.
Qed.

(** The canonical string of a URL with a host. *)
Lemma rstrip_canonical s n p :
  n <> "" -> any (char_in "/?#") n = false ->
  rstrip (is_char "/") (s +:+ "://" +:+ n +:+ p)
  = s +:+ "://" +:+ n +:+ rstrip (is_char "/") p.
Proof.
  intros Hn Hd.
  assert (E : rstrip (is_char "/") (n +:+ p) = n +:+ rstrip (is_char "/") p)
    by now apply rstrip_after_host.
  assert (Hne : n +:+ rstrip (is_char "/") p <> "")
    by (destruct n; [congruence | discriminate]).
  rewrite rstrip_app_nonempty.
  - f_equal. rewrite rstrip_app_nonempty; rewrite E; [reflexivity | exact Hne].
  - rewrite rstrip_app_nonempty; rewrite E; [|exact Hne].
    discriminate.
Qed.

Lemma normalize_with_host u p :
  urlparse u = Some p -> netloc p <> "" ->
  _normalize_url u
  = Some (scheme p +:+ "://" +:+ netloc p +:+ rstrip (is_char "/") (path p)).
Proof.
  intros E Hn. unfold _normalize_url. rewrite E. f_equal.
  apply rstrip_canonical; [exact Hn|].
  exact (ws_netloc_delim _ _ _ (urlparse_well_split _ _ E)).
Qed.

(** [urlsplit] reads a canonical string back into its three parts. *)
Lemma urlsplit_canonical s n p :
  well_split s n p -> s <> "" -> n <> "" ->
  urlsplit (s +:+ "://" +:+ n +:+ p) = Some (s, n, p, "", "").
Proof.
  intros [Hs Hns Hps Hnd Hok Hph Hpf Hpq] Hs0 Hn0.
  destruct Hs as [-> | [Hv Hl]]; [congruence|].
  destruct (valid_scheme_head _ Hv) as (c0 & s' & -> & Ha & Hall).
  assert (Hcolon : any (is_char ":") (String c0 s') = false).
  { eapply all_implies_none; [|exact Hall].
    intros c Hc. now apply scheme_char_not_delim, char_in_delim_split in Hc. }
  assert (Hsafe : any is_unsafe (String c0 s' +:+ "://" +:+ n +:+ p) = false).
  { rewrite !any_app, Hns, Hps.
    rewrite (all_implies_none _ _ _ scheme_char_not_unsafe Hall). reflexivity. }
  unfold urlsplit.
  change (String c0 s' +:+ "://" +:+ n +:+ p)
    with (String c0 (s' +:+ "://" +:+ n +:+ p)) in *.
  rewrite (lstrip_fixed _ _ _ (alpha_not_c0 _ Ha)).
  rewrite (remove_fixed _ _ Hsafe).
  change (String c0 (s' +:+ "://" +:+ n +:+ p))
    with (String c0 s' +:+ String ":" ("//" +:+ n +:+ p)).
  unfold split_scheme.
  rewrite (break_exact _ _ _ Hcolon) by (right; eauto).
  change (is_ascii_alpha c0 && all is_scheme_char (String c0 s'))
    with (valid_scheme (String c0 s')). rewrite Hv, Hl.
  change (String.eqb (take 2 ("//" +:+ n +:+ p)) "//") with true. cbv iota.
  unfold _splitnetloc. change (drop 2 ("//" +:+ n +:+ p)) with (n +:+ p).
  rewrite (break_exact _ _ _ Hnd).
  2:{ destruct (Hph Hn0) as [-> | Hp]; [now left | right].
      destruct p as [|x p]; [discriminate|]. exists x, p. split; [reflexivity|].
      simpl in Hp. simpl. now rewrite Ascii.eqb_sym, Hp. }
  rewrite Hok, (split_once_fixed _ _ Hpf), (split_once_fixed _ _ Hpq).
  reflexivity.
Qed.

(** [urlparse] reads it back too, unless the scheme takes parameters and
    the last segment of the path holds a semicolon. *)
Lemma urlparse_canonical s n p :
  well_split s n p -> s <> "" -> n <> "" ->
  (in_uses_params s = true -> any (is_char ";") (last_segment p) = false) ->
  urlparse (s +:+ "://" +:+ n +:+ p) = Some (mkParseResult s n p "" "" "").
Proof.
  intros W Hs Hn Hpar. unfold urlparse.
  rewrite (urlsplit_canonical _ _ _ W Hs Hn).
  destruct (in_uses_params s) eqn:Hu; simpl; [|reflexivity].
  destruct (any (is_char ";") p) eqn:Hsemi; [|reflexivity].
  rewrite splitparams_fixed; [reflexivity | | now apply Hpar].
  destruct (ws_path_head _ _ _ W Hn) as [-> | Hp]; [discriminate|].
  destruct p as [|x p]; [discriminate|]. simpl in *.
  unfold is_char. now rewrite Ascii.eqb_sym, Hp.
Qed.

(** Normalizing twice is normalizing once, under that condition. *)
Lemma normalize_fixed u p :
  urlparse u = Some p -> scheme p <> "" -> netloc p <> "" ->
  (in_uses_params (scheme p) = true ->
   any (is_char ";") (last_segment (rstrip (is_char "/") (path p))) = false) ->
  exists v, _normalize_url u = Some v /\ _normalize_url v = Some v.
Proof.
  intros E Hs Hn Hpar.
  pose proof (well_split_rstrip _ _ _ (urlparse_well_split _ _ E)) as W.
  eexists. split; [exact (normalize_with_host _ _ E Hn)|].
  pose proof (urlparse_canonical _ _ _ W Hs Hn Hpar) as E2.
  rewrite (normalize_with_host _ _ E2 Hn). simpl. now rewrite rstrip_idem.
Qed.

Lemma normalize_never_ends_with_slash u v :
  _normalize_url u = Some v -> endswith "/" v = false.
Proof.
  unfold _normalize_url. destruct (urlparse u); [|discriminate].
  intros [= <-]. apply rstrip_not_endswith.
Qed.

End WithLibrary.

End UrlFacts.

(** * The URL normalizer *)

Section Normalizer.
Context `{UrlLib}.
Import PyStr PyStrFacts UrlParse UrlFacts.

Lemma canonical_has_no (c : ascii) s n p :
  well_split s n p ->
  (forall x, is_scheme_char x = true -> is_char c x = false) ->
  is_char c ":" = false -> is_char c "/" = false ->
  (forall x, is_char c x = true -> char_in "/?#" x = true) ->
  any (is_char c) p = false ->
  any (is_char c) (s +:+ "://" +:+ n +:+ p) = false.
Proof.
  intros W Hsch Hcolon Hslash Hdelim Hp.
  rewrite !any_app, Hp, orb_false_r.
  rewrite (any_weaken _ _ _ Hdelim (ws_netloc_delim _ _ _ W)), orb_false_r.
  assert (Hmid : any (is_char c) "://" = false)
    by (simpl; now rewrite Hcolon, Hslash).
  rewrite Hmid, orb_false_r.
  destruct (ws_scheme _ _ _ W) as [-> | [Hv _]]; [reflexivity|].
  destruct (valid_scheme_head _ Hv) as (c0 & s' & -> & _ & Hall).
  exact (all_implies_none _ _ _ Hsch Hall).
Qed.

(** C4, as amended: for every absolute URL with a host, that is every
    URL in which [urlparse] finds a scheme and a host that are not empty,
    the normalizer returns the parsed scheme, [://], the parsed host and
    the parsed path with all of its trailing slashes removed, not only
    one; the query string and the fragment are dropped, so the result
    holds no [?] and no [#], does not end in a slash, and what follows the
    host is empty or begins with a slash. *)
Theorem normalize_shape (u : string) (p : ParseResult) :
  urlparse u = Some p -> scheme p <> "" -> netloc p <> "" ->
  exists v path',
    _normalize_url u = Some v
    /\ v = scheme p +:+ "://" +:+ netloc p +:+ path'
    /\ path' = rstrip (is_char "/") (path p)
    /\ (exists slashes, path p = path' +:+ slashes /\ all (is_char "/") slashes = true)
    /\ (path' = "" \/ startswith "/" path' = true)
    /\ endswith "/" v = false
    /\ any (is_char "?") v = false
    /\ any (is_char "#") v = false.
Proof.
  intros E Hs Hn.
  pose proof (normalize_with_host _ _ E Hn) as Hv.
  pose proof (well_split_rstrip _ _ _ (urlparse_well_split _ _ E)) as W.
  eexists _, _. split; [exact Hv|]. split; [reflexivity|]. split; [reflexivity|].
  split; [apply rstrip_prefix|].
  split; [exact (ws_path_head _ _ _ W Hn)|].
  split; [exact (normalize_never_ends_with_slash _ _ Hv)|].
  split.
  - apply (canonical_has_no "?" _ _ _ W); try reflexivity.
    + intros x Hx. now apply scheme_char_not_delim, char_in_delim_split in Hx.
    + intros x Hx. simpl. unfold is_char in Hx. rewrite Hx. now rewrite !orb_true_r.
    + exact (ws_path_query _ _ _ W).
  - apply (canonical_has_no "#" _ _ _ W); try reflexivity.
    + intros x Hx. now apply scheme_char_not_delim, char_in_delim_split in Hx.
    + intros x Hx. simpl. unfold is_char in Hx. rewrite Hx. now rewrite !orb_true_r.
    + exact (ws_path_fragment _ _ _ W).
Qed.

(** C9, as amended: normalizing twice is normalizing once for every
    absolute URL with a host, that is every URL in which [urlparse] finds
    a scheme and a host that are not empty, except when the scheme is one
    that takes parameters and the path of the URL, once its trailing
    slashes are removed, has a semicolon in its last segment; and the
    three URLs of the example all normalize to [http://h/p]. *)
Theorem normalize_idempotent_without_exposed_params :
  (forall (u : string) (p : ParseResult),
     urlparse u = Some p -> scheme p <> "" -> netloc p <> "" ->
     (in_uses_params (scheme p) = true ->
      any (is_char ";") (last_segment (rstrip (is_char "/") (path p))) = false) ->
     exists v, _normalize_url u = Some v /\ _normalize_url v = Some v)
  /\ _normalize_url "http://h/p/?x=1#f" = Some "http://h/p"
  /\ _normalize_url "http://h/p/" = Some "http://h/p"
  /\ _normalize_url "http://h/p" = Some "http://h/p".
Proof.
  split; [exact normalize_fixed|]. repeat split; reflexivity.
Qed.

(** C10, as amended: for every URL with a host whose parsed path is empty
    or made of slashes only, the normalizer returns exactly the scheme,
    [://] and the host; and whatever the URL, the result never ends in a
    slash, since every trailing slash is removed. *)
Theorem normalize_bare_host :
  (forall (u : string) (p : ParseResult),
     urlparse u = Some p -> netloc p <> "" ->
     all (is_char "/") (path p) = true ->
     _normalize_url u = Some (scheme p +:+ "://" +:+ netloc p))
  /\ (forall u v : string, _normalize_url u = Some v -> endswith "/" v = false).
Proof.
  split; [|exact normalize_never_ends_with_slash].
  intros u p E Hn Hall. rewrite (normalize_with_host _ _ E Hn).
  now rewrite (rstrip_all _ _ Hall), append_empty_r.
Qed.

(** The three closed refutations below do not depend on the library
    instance: the host [h] has no bracket and is ASCII, so no validator is
    consulted. *)
Example two_slashes_any_library :
  _normalize_url "http://h/p//" = Some "http://h/p"
  /\ normalize_spec "http://h/p//" = Some "http://h/p/".
Proof. split; reflexivity. Qed.

Example exposed_params_any_library :
  _normalize_url "http://h/a;b/" = Some "http://h/a;b"
  /\ _normalize_url "http://h/a;b" = Some "http://h/a".
Proof. split; reflexivity. Qed.

Example empty_host_any_library : _normalize_url "file:///" = Some "file:".
Proof. reflexivity. Qed.

(** Without a host the second pass can even raise: the first pass puts
    [[a] where the next one reads a host. *)
Example empty_host_second_pass_raises :
  _normalize_url "x:[a" = Some "x://[a" /\ _normalize_url "x://[a" = None.
Proof. split; reflexivity. Qed.

End Normalizer.

Module NormalizerExamples.
#[local] Existing Instance plain_urllib.
Import PyStr UrlParse UrlFacts Toy.

Lemma normalize_shape_witness :
  urlparse "http://h/p/?x=1#f" = Some sample_parse
  /\ scheme sample_parse <> "" /\ netloc sample_parse <> ""
  /\ exists v path',
       _normalize_url "http://h/p/?x=1#f" = Some v
       /\ v = "http" +:+ "://" +:+ "h" +:+ path'
       /\ path' = rstrip (is_char "/") "/p/"
       /\ (exists slashes, "/p/" = path' +:+ slashes /\ all (is_char "/") slashes = true)
       /\ (path' = "" \/ startswith "/" path' = true)
       /\ endswith "/" v = false
       /\ any (is_char "?") v = false
       /\ any (is_char "#") v = false.
Proof.
  split; [reflexivity|]. split; [discriminate|]. split; [discriminate|].
  apply (normalize_shape "http://h/p/?x=1#f" sample_parse);
    [reflexivity | discriminate | discriminate].
Defined.

(** C4 as stated fails: on a path that ends in two slashes the code
    removes both, the rule of the specification only one. *)
Lemma normalize_strips_more_than_one_slash :
  _normalize_url "http://h/p//" = Some "http://h/p"
  /\ normalize_spec "http://h/p//" = Some "http://h/p/"
  /\ _normalize_url "http://h/p//" <> normalize_spec "http://h/p//".
Proof. split; [reflexivity|]. split; [reflexivity|]. discriminate. Qed.

Lemma normalize_idempotent_witness :
  urlparse "http://h/p/?x=1#f" = Some sample_parse
  /\ scheme sample_parse <> "" /\ netloc sample_parse <> ""
  /\ (in_uses_params (scheme sample_parse) = true ->
      any (is_char ";") (last_segment (rstrip (is_char "/") (path sample_parse))) = false)
  /\ exists v, _normalize_url "http://h/p/?x=1#f" = Some v /\ _normalize_url v = Some v.
Proof.
  split; [reflexivity|]. split; [discriminate|]. split; [discriminate|].
  split; [reflexivity|].
  apply (proj1 normalize_idempotent_without_exposed_params
           "http://h/p/?x=1#f" sample_parse);
    [reflexivity | discriminate | discriminate | reflexivity].
Defined.

(** C9 as stated fails: stripping the slash of [http://h/a;b/] exposes
    [;b] as parameters of the last segment, which the next pass drops. *)
Lemma normalize_twice_differs :
  _normalize_url "http://h/a;b/" = Some "http://h/a;b"
  /\ _normalize_url "http://h/a;b" = Some "http://h/a"
  /\ "http://h/a" <> "http://h/a;b".
Proof. split; [reflexivity|]. split; [reflexivity|]. discriminate. Qed.

Lemma normalize_bare_host_witness :
  urlparse "http://host/" = Some bare_parse
  /\ netloc bare_parse <> ""
  /\ all (is_char "/") (path bare_parse) = true
  /\ _normalize_url "http://host/" = Some "http://host".
Proof.
  split; [reflexivity|]. split; [discriminate|]. split; [reflexivity|].
  apply (proj1 normalize_bare_host "http://host/" bare_parse);
    [reflexivity | discriminate | reflexivity].
Defined.

(** C10 as stated fails without a host: the slashes of [://] are trailing
    slashes too. *)
Lemma normalize_without_host :
  urlparse "file:///" = Some (mkParseResult "file" "" "/" "" "" "")
  /\ _normalize_url "file:///" = Some "file:"
  /\ _normalize_url "file:///" <> Some ("file" +:+ "://" +:+ "").
Proof. split; [reflexivity|]. split; [reflexivity|]. discriminate. Qed.

End NormalizerExamples.

(** * The path builder *)

Section PathBuilder.
Context `{UrlLib}.
Import PyStr PyStrFacts.

Lemma length_join (a b : string) :
  (String.length (PosixPath.join a b) <= String.length a + 1 + String.length b)%nat.
Proof.
  unfold PosixPath.join.
  destruct (startswith "/" b); [lia|].
  destruct (is_empty a || endswith "/" a); rewrite !length_append;
    try change (String.length "/") with 1%nat; lia.
Qed.

Lemma length_hash_prefix (u : string) : (String.length (hash_prefix u) <= 8)%nat.
Proof. apply length_take. Qed.

Lemma length_fallback_name (filepath : string) :
  (String.length (take 10 (MD5.hexdigest filepath) +:+ ".md") <= 13)%nat.
Proof.
  rewrite length_append. pose proof (length_take 10 (MD5.hexdigest filepath)).
  change (String.length ".md") with 3%nat. lia.
Qed.

Lemma length_page_folder self parent u :
  (String.length (page_folder self parent u)
   <= String.length (base_folder self)
      + match parent with None => 0 | Some t => 1 + String.length t end
      + 9)%nat.
Proof.
  unfold page_folder.
  pose proof (length_hash_prefix u).
  destruct parent as [t|].
  - pose proof (length_join (PosixPath.join (base_folder self) t) (hash_prefix u)).
    pose proof (length_join (base_folder self) t). lia.
  - pose proof (length_join (base_folder self) (hash_prefix u)). lia.
Qed.

Lemma length_filename u filename :
  _filename_from_url u = Some filename -> (String.length filename <= 53)%nat.
Proof.
  unfold _filename_from_url. destruct (UrlParse.urlparse u); [|discriminate].
  intros [= <-]. rewrite length_append. change (String.length ".md") with 3%nat.
  match goal with |- context [if ?b then _ else _] =>
    match b with (_ <? _)%nat => destruct b eqn:E end end.
  - pose proof (length_last 50 (map sanitize_char
      (if is_empty (strip (is_char "/") (path p)) then "index"
       else strip (is_char "/") (path p)))). lia.
  - apply Nat.ltb_ge in E. lia.
Qed.

(** C3, as amended: the path builder writes to the folder
    [base/[parent/]digest8]; it keeps the plain path
    [folder/filename] when that is at most 240 characters long, and
    otherwise replaces the file name, in the same folder, by the first ten
    hexadecimal characters of the MD5 of the plain path followed by
    [.md], a function of the input alone. The result is at most 240
    characters long whenever the folder is at most 226 characters long,
    and in general at most the larger of 240 and the folder length plus
    14; the folder is at most 9 characters longer than the base folder
    plus, below the root, the parent token and one separator. *)
Theorem path_builder_bound (self : MarkdownExtractor)
    (parent_folder : option string) (final_url filename : string) :
  _filename_from_url final_url = Some filename ->
  let folder := page_folder self parent_folder final_url in
  let plain := PosixPath.join folder filename in
  exists filepath,
    page_filepath self parent_folder final_url = Some filepath
    /\ ((String.length plain <= 240)%nat -> filepath = plain)
    /\ ((240 < String.length plain)%nat ->
        filepath = PosixPath.join folder (take 10 (MD5.hexdigest plain) +:+ ".md"))
    /\ (String.length filepath <= Nat.max 240 (String.length folder + 14))%nat
    /\ ((String.length folder <= 226)%nat -> (String.length filepath <= 240)%nat)
    /\ (String.length folder
        <= String.length (base_folder self)
           + match parent_folder with None => 0 | Some t => 1 + String.length t end
           + 9)%nat.
Proof.
  intros Hf folder plain. unfold page_filepath. rewrite Hf.
  eexists. split; [reflexivity|].
  fold folder. unfold choose_filepath, plain_filepath, fallback_filepath.
  fold plain.
  pose proof (length_join folder (take 10 (MD5.hexdigest plain) +:+ ".md")) as Hj.
  pose proof (length_fallback_name plain) as Hn.
  destruct (240 <? String.length plain)%nat eqn:E.
  - apply Nat.ltb_lt in E. repeat split; intros; try lia.
    apply length_page_folder.
  - apply Nat.ltb_ge in E. repeat split; intros; try lia.
    apply length_page_folder.
Qed.

End PathBuilder.

Module PathBuilderExamples.
#[local] Existing Instance plain_urllib.
Import PyStr Toy.

Lemma path_builder_bound_witness :
  _filename_from_url "http://h/a/b" = Some "a_b.md"
  /\ exists filepath,
       page_filepath sample_extractor (Some "d42568f3") "http://h/a/b" = Some filepath
       /\ (String.length filepath <= 240)%nat.
Proof.
  split; [reflexivity|].
  destruct (path_builder_bound sample_extractor (Some "d42568f3")
              "http://h/a/b" "a_b.md" eq_refl)
    as (filepath & E & _ & _ & _ & Hle & Hfolder).
  exists filepath. split; [exact E|]. apply Hle.
  etransitivity; [exact Hfolder|]. vm_compute. lia.
Defined.

(** C3 as stated fails: under a base folder of 230 characters the
    replacement name still gives a path of 253 characters. *)
Lemma long_base_folder_exceeds_240 :
  option_map String.length
    (page_filepath (mkExtractor (replicate 230 "a") 1) None "http://h/p")
  = Some 253%nat
  /\ (240 < 253)%nat.
Proof. split; [vm_compute; reflexivity | lia]. Qed.

End PathBuilderExamples.

(** * The crawl engine: calls and fuel *)

(** ** Making directories *)

Lemma makedirs_files p fs fs' :
  makedirs p fs = Some fs' -> files fs' = files fs.
Proof.
  unfold makedirs. destruct (PyStr.is_empty p); [discriminate|].
  case_decide; [discriminate|]. now intros [= <-].
Qed.

Lemma makedirs_raises p fs :
  makedirs p fs = None <-> p = "" \/ occupied fs p.
Proof.
  unfold makedirs. destruct p as [|c p]; simpl.
  - split; [now left | reflexivity].
  - case_decide as Ho; split; try reflexivity; try discriminate.
    + now right.
    + now intros [? | ?].
Qed.

Lemma makedirs_made p fs fs' :
  makedirs p fs = Some fs' ->
  p ∈ dirs fs' /\ (forall q, q ∈ on_the_way p -> q ∈ dirs fs')
  /\ (forall q, q ∈ dirs fs -> q ∈ dirs fs').
Proof.
  unfold makedirs. destruct (PyStr.is_empty p); [discriminate|].
  case_decide; [discriminate|]. intros [= <-]. simpl.
  repeat split; intros; set_solver.
Qed.

(** What [os.makedirs(p, exist_ok=True)] does on small disks: the empty
    path, a regular file at the path, a regular file on the way, and two
    levels made at once. *)
Example makedirs_cases :
  on_the_way "out/e9d444c4/index.md" = ["out"; "out/e9d444c4"]
  /\ on_the_way "/srv/out" = ["/srv"]
  /\ makedirs "" (mkFs ∅ ∅) = None
  /\ makedirs "f" (mkFs ∅ {[ "f" := "text" ]}) = None
  /\ makedirs "f/sub" (mkFs ∅ {[ "f" := "text" ]}) = None
  /\ makedirs "f/" (mkFs ∅ {[ "f" := "text" ]}) = None
  /\ makedirs "d/f/sub/low" (mkFs {[ "d" ]} {[ "d/f" := "text" ]}) = None
  /\ makedirs "out/sub" (mkFs ∅ {[ "f" := "text" ]})
     = Some (mkFs {[ "out"; "out/sub" ]} {[ "f" := "text" ]})
  /\ makedirs "out" (mkFs {[ "out" ]} ∅) = Some (mkFs {[ "out" ]} ∅).
Proof. repeat split; vm_compute; reflexivity. Qed.

Section EngineFacts.
Context `{UrlLib} `{Collaborators}.
Variable self : MarkdownExtractor.

Lemma for_each_follow f links depth parent st :
  (forall l s, f l s = Some (fetch_and_save self l depth parent s)) ->
  for_each f links st = Some (follow_links self links depth parent st).
Proof.
  intros Hf. revert st. induction links as [|l links IH]; intros st; simpl.
  - reflexivity.
  - rewrite Hf. destruct (fetch_and_save self l depth parent st) as [[] st'];
      [apply IH | reflexivity].
Qed.

Lemma for_each_uniform (F : nat -> string -> state -> option (outcome * state))
    (ok : nat -> Prop) links :
  (forall l s, exists r, forall m, ok m -> F m l s = Some r) ->
  forall st, exists r, forall m, ok m -> for_each (F m) links st = Some r.
Proof.
  intros HF. induction links as [|l links IH]; intros st; simpl.
  - eexists. reflexivity.
  - destruct (HF l st) as [[[] st'] Hr].
    + destruct (IH st') as [r' Hr']. exists r'. intros m Hm.
      rewrite (Hr m Hm). now apply Hr'.
    + exists (Raised, st'). intros m Hm. now rewrite (Hr m Hm).
Qed.

(** With enough fuel the result is there and does not depend on the
    fuel. *)
Lemma fuel_uniform (n : nat) :
  forall url depth parent st,
    (enough self depth <= n)%nat ->
    exists r, forall m, (enough self depth <= m)%nat ->
      fetch_and_save_fuel self m url depth parent st = Some r.
Proof.
  induction n as [|n IH]; intros url depth parent st Hn.
  - unfold enough in Hn. lia.
  - destruct (process_page self url depth parent st) as [o st'|final_url links st'] eqn:Ep.
    + exists (o, st'). intros [|m] Hm; [unfold enough in Hm; lia|].
      simpl. unfold fetch_and_save_body. now rewrite Ep.
    + destruct (depth <? max_depth self)%Z eqn:Hd.
      * apply Z.ltb_lt in Hd.
        assert (He : enough self depth = S (enough self (depth + 1))).
        { unfold enough. f_equal. rewrite <- Z2Nat.inj_succ by lia. f_equal. lia. }
        destruct (for_each_uniform
                    (fun m l s => fetch_and_save_fuel self m l (depth + 1)
                                    (Some (hash_prefix final_url)) s)
                    (fun m => enough self (depth + 1) <= m)%nat links) with (st := st')
          as [r Hr].
        { intros l s. apply IH. lia. }
        exists r. intros [|m] Hm; [lia|].
        simpl. unfold fetch_and_save_body. rewrite Ep.
        replace (depth <? max_depth self)%Z with true by (symmetry; now apply Z.ltb_lt).
        apply Hr. lia.
      * exists (Returned, st'). intros [|m] Hm; [unfold enough in Hm; lia|].
        simpl. unfold fetch_and_save_body. now rewrite Ep, Hd.
Qed.

Lemma fuel_enough fuel url depth parent st :
  (enough self depth <= fuel)%nat ->
  fetch_and_save_fuel self fuel url depth parent st
  = Some (fetch_and_save self url depth parent st).
Proof.
  intros Hf.
  destruct (fuel_uniform fuel url depth parent st Hf) as [r Hr].
  unfold fetch_and_save. rewrite (Hr (enough self depth)) by lia.
  now apply Hr.
Qed.

(** The body of [fetch_and_save], read on the total function. *)
Lemma fetch_and_save_unfold url depth parent st :
  fetch_and_save self url depth parent st =
  match process_page self url depth parent st with
  | Exit o st' => (o, st')
  | Persisted final_url links st' =>
      if (depth <? max_depth self)%Z
      then follow_links self links (depth + 1) (Some (hash_prefix final_url)) st'
      else (Returned, st')
  end.
Proof.
  unfold fetch_and_save at 1. unfold enough. simpl.
  unfold fetch_and_save_body.
  destruct (process_page self url depth parent st) as [o st'|final_url links st'];
    [reflexivity|].
  destruct (depth <? max_depth self)%Z eqn:Hd; [|reflexivity].
  apply Z.ltb_lt in Hd.
  rewrite (for_each_follow _ links (depth + 1) (Some (hash_prefix final_url)));
    [reflexivity|].
  intros l s. apply fuel_enough. unfold enough.
  rewrite <- Z2Nat.inj_succ by lia. apply Nat.eq_le_incl. f_equal. lia.
Qed.

(** A relation between states that holds across every page, is reflexive
    and transitive, and passes from depth [d + 1] to depth [d], holds
    across every call. *)
Lemma across_calls (R : Z -> state -> state -> Prop) :
  (forall d st, R d st st) ->
  (forall d st1 st2 st3, R d st1 st2 -> R d st2 st3 -> R d st1 st3) ->
  (forall d st st', (d < max_depth self)%Z -> R (d + 1)%Z st st' -> R d st st') ->
  (forall url d parent st, R d st (state_of (process_page self url d parent st))) ->
  forall url d parent st, R d st (snd (fetch_and_save self url d parent st)).
Proof.
  intros Hrefl Htrans Hup Hpage.
  assert (Hn : forall n url d parent st,
             (Z.to_nat (max_depth self - d) <= n)%nat ->
             R d st (snd (fetch_and_save self url d parent st))).
  { induction n as [|n IH]; intros url d parent st Hle;
      rewrite fetch_and_save_unfold;
      pose proof (Hpage url d parent st) as Hp;
      destruct (process_page self url d parent st) as [o st'|final_url links st'];
      simpl in *; try exact Hp;
      destruct (d <? max_depth self)%Z eqn:Hd; try exact Hp;
      apply Z.ltb_lt in Hd; [lia|].
    apply (Htrans _ _ _ _ Hp). apply Hup; [exact Hd|].
    generalize (Some (hash_prefix final_url)) as parent'. intros parent'.
    clear Hp. revert st'. induction links as [|l links IHl]; intros st'; simpl.
    - apply Hrefl.
    - pose proof (IH l (d + 1)%Z parent' st' ltac:(lia)) as Hl.
      destruct (fetch_and_save self l (d + 1) parent' st') as [[] st''];
        simpl in *; [|exact Hl].
      exact (Htrans _ _ _ _ Hl (IHl st'')). }
  intros url d parent st. now apply (Hn (Z.to_nat (max_depth self - d))).
Qed.


(** *** One page *)

Lemma log_emit e (st : state) : log (emit e st) = log st ++ [e].
Proof. reflexivity. Qed.


(** A page already visited: lines 57 to 59. *)
Lemma process_page_visited url depth parent st nu w resp final_url :
  _normalize_url url = Some nu ->
  requests_get (world st) (the_request nu) = (w, Some resp) ->
  _normalize_url (resp_url resp) = Some final_url ->
  final_url ∈ visited_urls st ->
  process_page self url depth parent st
  = Exit Returned
      (mkState w (visited_urls st) (disk st)
         (log st ++ [Processing depth nu; HttpGet (the_request nu);
                     AlreadyVisited final_url])).
Proof.
  intros Hn Hg Hf Hv. unfold process_page. rewrite Hn. simpl. rewrite Hg.
  unfold handle_response. rewrite Hf. simpl.
  rewrite decide_True by exact Hv.
  unfold emit, set_world. simpl. now rewrite <- !app_assoc.
Qed.

(** What saving a page changes. *)
Lemma persist_effect parent final_url markdown_text links st :
  match persist self parent final_url markdown_text links st with
  | Exit o st' =>
      o = Raised /\ world st' = world st /\ visited_urls st' = visited_urls st
      /\ files (disk st') = files (disk st) /\ log st' = log st
  | Persisted u links' st' =>
      u = final_url /\ links' = links /\ world st' = world st
      /\ exists filepath,
           page_filepath self parent final_url = Some filepath
           /\ visited_urls st' = {[ final_url ]} ∪ visited_urls st
           /\ files (disk st')
              = <[ filepath := document final_url markdown_text ]> (files (disk st))
           /\ log st' = log st ++ [WriteFile filepath final_url markdown_text;
                                   Saved filepath]
  end.
Proof.
  unfold persist, page_filepath.
  destruct (makedirs _ (disk st)) as [d1|] eqn:E1; [|now repeat split].
  assert (F1 : files d1 = files (disk st)) by exact (makedirs_files _ _ _ E1).
  destruct (_filename_from_url final_url) as [filename|]; [|now repeat split].
  simpl.
  destruct (makedirs _ d1) as [d2|] eqn:E2; [|now repeat split].
  assert (F2 : files d2 = files d1) by exact (makedirs_files _ _ _ E2).
  simpl.
  destruct (write_file _ _ d2) as [d3|] eqn:E3; simpl;
    [|repeat split; congruence].
  split; [reflexivity|]. split; [reflexivity|]. split; [reflexivity|].
  eexists. split; [reflexivity|]. split; [reflexivity|]. split.
  - unfold write_file in E3. case_decide; [discriminate|]. inversion E3.
    simpl. now rewrite F2, F1.
  - now rewrite <- app_assoc.
Qed.

(** What handling a response changes: either no file is written and the
    visited set stays, or one file is written for a URL that was not
    visited and is now. *)
Lemma handle_response_effect parent resp st :
  let r := handle_response self parent resp st in
  world (state_of r) = world st
  /\ exists new,
       log (state_of r) = log st ++ new
       /\ tasks_of new = [] /\ requests_of new = []
       /\ match r with
          | Exit _ st' =>
              writes_of new = []
              /\ visited_urls st' = visited_urls st
              /\ files (disk st') = files (disk st)
          | Persisted final_url links st' =>
              _normalize_url (resp_url resp) = Some final_url
              /\ (final_url ∉ visited_urls st)
              /\ visited_urls st' = {[ final_url ]} ∪ visited_urls st
              /\ exists filepath markdown_text,
                   page_filepath self parent final_url = Some filepath
                   /\ writes_of new = [(filepath, final_url)]
                   /\ new = [WriteFile filepath final_url markdown_text; Saved filepath]
                   /\ files (disk st')
                      = <[ filepath := document final_url markdown_text ]>
                          (files (disk st))
          end.
Proof.
  unfold handle_response.
  destruct (_normalize_url (resp_url resp)) as [final_url|];
    [|simpl; split; [reflexivity|]; exists []; now rewrite app_nil_r].
  destruct (decide (final_url ∈ visited_urls st)) as [Hv|Hv];
    [simpl; split; [reflexivity|]; now exists [AlreadyVisited final_url]|].
  destruct (locate_main _) as [main_content|];
    [|simpl; split; [reflexivity|]; now exists [NoMainContent]].
  destruct (extract_links final_url main_content) as [links|];
    [|simpl; split; [reflexivity|]; exists []; now rewrite app_nil_r].
  pose proof (persist_effect parent final_url
                (markdownify (decompose_all noise_tags main_content)) links st) as P.
  destruct (persist _ _ _ _ _ _) as [o st'|u links' st']; simpl.
  - destruct P as (_ & Hw & Hvis & Hfiles & Hlog). split; [exact Hw|].
    exists []. rewrite app_nil_r. now repeat split.
  - destruct P as (-> & -> & Hw & filepath & Hp & Hvis & Hfiles & Hlog).
    split; [exact Hw|]. eexists. split; [exact Hlog|].
    split; [reflexivity|]. split; [reflexivity|].
    split; [reflexivity|]. split; [exact Hv|]. split; [exact Hvis|].
    eexists _, _. now repeat split.
Qed.

(** What a page adds to the log: nothing when the URL cannot be parsed,
    else its own task and its own request, then what the response
    brings. *)
Lemma process_page_effect url depth parent st :
  let r := process_page self url depth parent st in
  exists new,
    log (state_of r) = log st ++ new
    /\ ((tasks_of new = [] /\ requests_of new = [])
        \/ exists nu, _normalize_url url = Some nu
                      /\ tasks_of new = [(depth, nu)] /\ requests_of new = [nu])
    /\ match r with
       | Exit _ st' =>
           writes_of new = []
           /\ visited_urls st' = visited_urls st
           /\ files (disk st') = files (disk st)
       | Persisted final_url links st' =>
           (final_url ∉ visited_urls st)
           /\ visited_urls st' = {[ final_url ]} ∪ visited_urls st
           /\ exists filepath markdown_text,
                page_filepath self parent final_url = Some filepath
                /\ writes_of new = [(filepath, final_url)]
                /\ files (disk st')
                   = <[ filepath := document final_url markdown_text ]>
                       (files (disk st))
       end.
Proof.
  unfold process_page.
  destruct (_normalize_url url) as [nu|];
    [|simpl; exists []; rewrite app_nil_r; split; [reflexivity|]; split; [now left | now repeat split]].
  simpl.
  destruct (requests_get (world st) (the_request nu)) as [w [resp|]].
  - set (st1 := emit (HttpGet (the_request nu))
                  (set_world w (emit (Processing depth nu) st))).
    destruct (handle_response_effect parent resp st1) as (_ & new & Hlog & Ht & Hr & Hm).
    exists ([Processing depth nu; HttpGet (the_request nu)] ++ new).
    split.
    { rewrite Hlog. unfold st1. simpl. now rewrite <- !app_assoc. }
    split.
    { right. exists nu. split; [reflexivity|].
      unfold tasks_of, requests_of in *. rewrite !omap_app, Ht, Hr. now split. }
    destruct (handle_response self parent resp st1) as [o st'|final_url links st'].
    + destruct Hm as (Hw & Hv & Hf). unfold writes_of in *.
      rewrite omap_app, Hw. now repeat split.
    + destruct Hm as (_ & Hnv & Hv & filepath & md & Hp & Hw & _ & Hf).
      split; [exact Hnv|]. split; [exact Hv|]. exists filepath, md.
      split; [exact Hp|]. split; [|exact Hf].
      unfold writes_of in *. now rewrite omap_app, Hw.
  - exists [Processing depth nu; HttpGet (the_request nu); FailedDownload nu].
    split; [simpl; now rewrite <- !app_assoc|].
    split; [right; exists nu; now repeat split | now repeat split].
Qed.


(** *** Whole calls *)

Lemma tasks_within_calls url d parent st :
  tasks_within self d st (snd (fetch_and_save self url d parent st)).
Proof.
  apply (across_calls (tasks_within self)).
  - intros d0 s. exists []. rewrite app_nil_r. now repeat split.
  - intros d0 s1 s2 s3 (n1 & L1 & F1 & R1) (n2 & L2 & F2 & R2).
    exists (n1 ++ n2). split; [rewrite L2, L1; now rewrite app_assoc|].
    unfold tasks_of, requests_of in *. rewrite !omap_app, fmap_app, R1, R2.
    split; [apply Forall_app; now split | reflexivity].
  - intros d0 s s' Hd (n & L & F & R). exists n. split; [exact L|].
    split; [|exact R]. eapply Forall_impl; [exact F|]. simpl. lia.
  - intros u d0 p s.
    destruct (process_page_effect u d0 p s) as (new & L & [[T R] | (nu & _ & T & R)] & _);
      exists new; (split; [exact L|]); rewrite T, R.
    + split; [constructor | reflexivity].
    + split; [|reflexivity]. repeat constructor; simpl; lia.
Qed.

(** A call at or beyond the depth bound sends one request at most. *)
Lemma at_bound_one_request url d parent st :
  (max_depth self <= d)%Z ->
  exists new,
    log (snd (fetch_and_save self url d parent st)) = log st ++ new
    /\ (length (requests_of new) <= 1)%nat.
Proof.
  intros Hd. rewrite fetch_and_save_unfold.
  destruct (process_page_effect url d parent st) as (new & L & C & _).
  exists new. split.
  - destruct (process_page self url d parent st); [exact L|].
    replace (d <? max_depth self)%Z with false by (symmetry; now apply Z.ltb_ge).
    exact L.
  - destruct C as [[_ ->] | (nu & _ & _ & ->)]; simpl; lia.
Qed.

Lemma writes_within_refl st : writes_within st st.
Proof.
  exists []. rewrite app_nil_r. simpl. repeat split; auto.
  - set_solver.
  - constructor.
  - intros u Hu. inversion Hu.
Qed.

Lemma writes_within_trans s1 s2 s3 :
  writes_within s1 s2 -> writes_within s2 s3 -> writes_within s1 s3.
Proof.
  intros (n1 & L1 & V1 & D1 & N1 & K1 & U1) (n2 & L2 & V2 & D2 & N2 & K2 & U2).
  exists (n1 ++ n2). unfold writes_of in *.
  rewrite !omap_app, !fmap_app.
  split; [rewrite L2, L1; now rewrite app_assoc|].
  split; [rewrite V2, V1, list_to_set_app_L; set_solver|].
  split.
  { apply NoDup_app. split; [exact D1|]. split; [|exact D2].
    intros u Hu1 Hu2. apply (N2 u Hu2). rewrite V1. set_solver. }
  split.
  { intros u [Hu | Hu]%elem_of_app; [now apply N1|].
    intros Hv. apply (N2 u Hu). rewrite V1. set_solver. }
  split; [intros p Hp; apply K2, K1, Hp|].
  intros p c Hc. destruct (U1 p c Hc) as [Hc2 | Hw]; [|right; set_solver].
  destruct (U2 p c Hc2) as [Hc3 | Hw]; [now left | right; set_solver].
Qed.

Lemma writes_within_calls url d parent st :
  writes_within st (snd (fetch_and_save self url d parent st)).
Proof.
  apply (across_calls (fun _ => writes_within)).
  - intros _. apply writes_within_refl.
  - intros _. apply writes_within_trans.
  - auto.
  - intros u d0 p s.
    destruct (process_page_effect u d0 p s) as (new & L & _ & M).
    exists new. split; [exact L|].
    destruct (process_page self u d0 p s) as [o st'|final_url links st']; simpl in *.
    + destruct M as (-> & -> & ->). simpl. repeat split; auto.
      * set_solver.
      * constructor.
      * intros x Hx. inversion Hx.
    + destruct M as (Hnv & -> & filepath & md & _ & -> & ->). simpl.
      split; [set_solver|]. split; [repeat constructor; set_solver|].
      split; [intros x Hx; assert (x = final_url) as -> by set_solver; exact Hnv|].
      split.
      * intros q [c Hc]. destruct (decide (filepath = q)) as [->|Hne].
        -- rewrite lookup_insert_eq. eauto.
        -- rewrite lookup_insert_ne by exact Hne. eauto.
      * intros q c Hc. destruct (decide (filepath = q)) as [->|Hne].
        -- right. set_solver.
        -- left. now rewrite lookup_insert_ne.
Qed.


(** The network after a page is the network after its one request. *)
Lemma process_page_request url depth parent st nu :
  _normalize_url url = Some nu ->
  world (state_of (process_page self url depth parent st))
  = (requests_get (world st) (the_request nu)).1
  /\ exists rest,
       log (state_of (process_page self url depth parent st))
       = log st ++ Processing depth nu :: HttpGet (the_request nu) :: rest.
Proof.
  intros Hn. unfold process_page. rewrite Hn. simpl.
  destruct (requests_get (world st) (the_request nu)) as [w [resp|]]; simpl.
  - set (st1 := emit _ (set_world w _)).
    destruct (handle_response_effect parent resp st1) as (Hw & new & Hlog & _).
    simpl in Hw, Hlog. split; [exact Hw|]. exists new.
    rewrite Hlog. unfold st1. simpl. now rewrite <- !app_assoc.
  - split; [reflexivity|]. exists [FailedDownload nu]. now rewrite <- !app_assoc.
Qed.

Lemma follow_links_log links depth parent st :
  exists new, log (snd (follow_links self links depth parent st)) = log st ++ new.
Proof.
  revert st. induction links as [|l links IH]; intros st; simpl.
  - exists []. now rewrite app_nil_r.
  - destruct (tasks_within_calls l depth parent st) as (n1 & L1 & _).
    destruct (fetch_and_save self l depth parent st) as [[] st']; simpl in *.
    + destruct (IH st') as (n2 & L2). exists (n1 ++ n2).
      now rewrite L2, L1, app_assoc.
    + now exists n1.
Qed.

(** *** The link loop *)

Lemma link_loop_step final_url base_domain raw rest links :
  link_loop final_url base_domain (raw :: rest) links =
  match link_decision final_url base_domain raw with
  | None => None
  | Some None => link_loop final_url base_domain rest links
  | Some (Some link) => link_loop final_url base_domain rest (links ++ [link])
  end.
Proof.
  unfold link_decision. simpl.
  destruct (_ || _); [reflexivity|].
  destruct (urljoin _ _); [|reflexivity].
  destruct (_normalize_url _); [|reflexivity].
  destruct (UrlParse.urlparse _); [|reflexivity].
  destruct (negb _); [reflexivity|].
  destruct (String.eqb _ _); reflexivity.
Qed.

Lemma link_loop_kept final_url base_domain hrefs :
  forall links result,
    link_loop final_url base_domain hrefs links = Some result ->
    result = links ++ omap (kept_link final_url base_domain) hrefs.
Proof.
  induction hrefs as [|raw rest IH]; intros links result.
  - simpl. intros [= <-]. now rewrite app_nil_r.
  - rewrite link_loop_step. simpl. unfold kept_link at 1.
    destruct (link_decision final_url base_domain raw) as [[link|]|];
      [| |discriminate]; intros E; apply IH in E; rewrite E.
    + now rewrite <- app_assoc.
    + reflexivity.
Qed.

Lemma kept_link_inv final_url base_domain raw link :
  kept_link final_url base_domain raw = Some link ->
  let href := PyStr.strip PyStr.is_space raw in
  href <> "" /\ PyStr.startswith "#" href = false
  /\ exists full_link p,
       urljoin final_url href = Some full_link
       /\ _normalize_url full_link = Some link
       /\ UrlParse.urlparse link = Some p
       /\ netloc p = base_domain
       /\ link <> final_url.
Proof.
  unfold kept_link, link_decision. simpl.
  destruct (PyStr.is_empty _ || _) eqn:E0; [discriminate|].
  apply orb_false_iff in E0 as [He Hh].
  destruct (urljoin _ _) as [full_link|]; [|discriminate].
  destruct (_normalize_url full_link) as [norm_link|] eqn:En; [|discriminate].
  destruct (UrlParse.urlparse norm_link) as [p|] eqn:Ep; [|discriminate].
  destruct (String.eqb (netloc p) base_domain) eqn:Ed; [|discriminate]. simpl.
  destruct (String.eqb norm_link final_url) eqn:Es; [discriminate|].
  intros [= <-]. split; [now apply PyStrFacts.is_empty_false|].
  split; [exact Hh|]. exists full_link, p.
  apply String.eqb_eq in Ed. apply String.eqb_neq in Es. now repeat split.
Qed.

Lemma kept_link_skips final_url base_domain raw :
  PyStr.strip PyStr.is_space raw = ""
  \/ PyStr.startswith "#" (PyStr.strip PyStr.is_space raw) = true ->
  kept_link final_url base_domain raw = None.
Proof.
  unfold kept_link, link_decision. simpl.
  intros [-> | ->]; [reflexivity | now rewrite orb_true_r].
Qed.

End EngineFacts.

(** * The crawl engine: the claims *)

Section EngineClaims.
Context `{UrlLib} `{Collaborators}.
Variable self : MarkdownExtractor.

(** C1: the loop over the links of a saved page is entered only when
    [depth < max_depth], and it calls [fetch_and_save] on each link with
    [depth + 1] and with the digest8 token of the saved page as parent
    folder. So every task of a call at [depth] runs at a depth between
    [depth] and the larger of [depth] and [max_depth], each request
    belongs to one such task, and a call at or beyond the bound sends at
    most its own request: with [max_depth = 1] the tasks of a crawl run at
    depth 0 or 1, and a link found on a page of depth 1 is never fetched. *)
Theorem depth_bound_respected (url : string) (depth : Z)
    (parent_folder : option string) (st : state) :
  let st' := (fetch_and_save self url depth parent_folder st).2 in
  fetch_and_save self url depth parent_folder st
  = match process_page self url depth parent_folder st with
    | Exit o s => (o, s)
    | Persisted final_url links s =>
        if (depth <? max_depth self)%Z
        then follow_links self links (depth + 1) (Some (hash_prefix final_url)) s
        else (Returned, s)
    end
  /\ (exists new,
        log st' = log st ++ new
        /\ Forall (fun t => (depth <= t.1 <= Z.max depth (max_depth self))%Z)
                  (tasks_of new)
        /\ requests_of new = (tasks_of new).*2)
  /\ ((max_depth self <= depth)%Z ->
      exists new,
        log st' = log st ++ new /\ (length (requests_of new) <= 1)%nat)
  /\ (max_depth self = 1%Z -> depth = 0%Z ->
      exists new,
        log st' = log st ++ new
        /\ Forall (fun t => t.1 = 0%Z \/ t.1 = 1%Z) (tasks_of new)
        /\ requests_of new = (tasks_of new).*2).
Proof.
  intros st'. split; [apply fetch_and_save_unfold|].
  split; [apply tasks_within_calls|].
  split; [apply at_bound_one_request|].
  intros Hm Hd.
  destruct (tasks_within_calls self url depth parent_folder st) as (new & L & F & R).
  exists new. split; [exact L|]. split; [|exact R].
  eapply Forall_impl; [exact F|]. simpl. intros t Ht. rewrite Hm, Hd in Ht. lia.
Qed.

(** C2, as amended: within a run each canonical URL is written at most
    once. A task whose final URL is already visited returns at the visited
    test without writing; a page that is saved was not visited before and
    is visited right after its write; over a whole call the visited set
    grows by exactly the URLs written, which are pairwise distinct and
    were not visited before; no file is ever removed, and the content of a
    file changes only if a page is written to its path. Two different URLs
    may still be given the same path, so an earlier file can be
    overwritten. *)
Theorem one_write_per_url :
  (forall url depth parent st nu w resp final_url,
     _normalize_url url = Some nu ->
     requests_get (world st) (the_request nu) = (w, Some resp) ->
     _normalize_url (resp_url resp) = Some final_url ->
     final_url ∈ visited_urls st ->
     exists st',
       fetch_and_save self url depth parent st = (Returned, st')
       /\ visited_urls st' = visited_urls st
       /\ disk st' = disk st
       /\ exists new, log st' = log st ++ new /\ writes_of new = [])
  /\ (forall url depth parent st final_url links st',
        process_page self url depth parent st = Persisted final_url links st' ->
        (final_url ∉ visited_urls st)
        /\ visited_urls st' = {[ final_url ]} ∪ visited_urls st
        /\ exists new filepath markdown_text,
             log st' = log st ++ new
             /\ writes_of new = [(filepath, final_url)]
             /\ page_filepath self parent final_url = Some filepath
             /\ files (disk st')
                = <[ filepath := document final_url markdown_text ]>
                    (files (disk st)))
  /\ (forall url depth parent st,
        let st' := (fetch_and_save self url depth parent st).2 in
        exists new,
          log st' = log st ++ new
          /\ visited_urls st' = visited_urls st ∪ list_to_set (writes_of new).*2
          /\ NoDup (writes_of new).*2
          /\ (forall u, u ∈ (writes_of new).*2 -> u ∉ visited_urls st)
          /\ (forall p, is_Some (files (disk st) !! p) ->
                        is_Some (files (disk st') !! p))
          /\ (forall p c, files (disk st) !! p = Some c ->
                files (disk st') !! p = Some c \/ p ∈ (writes_of new).*1)).
Proof.
  split; [|split].
  - intros url depth parent st nu w resp final_url Hn Hg Hf Hv.
    eexists. rewrite fetch_and_save_unfold.
    rewrite (process_page_visited self _ _ _ _ _ _ _ _ Hn Hg Hf Hv).
    split; [reflexivity|]. simpl. split; [reflexivity|]. split; [reflexivity|].
    eexists. split; reflexivity.
  - intros url depth parent st final_url links st' Hp.
    destruct (process_page_effect self url depth parent st) as (new & L & _ & M).
    rewrite Hp in L, M. simpl in L.
    destruct M as (Hnv & Hvis & filepath & md & Hpath & Hw & Hfiles).
    split; [exact Hnv|]. split; [exact Hvis|]. now exists new, filepath, md.
  - intros url depth parent st. apply writes_within_calls.
Qed.

(** C5: the links extracted from a content region are, in document
    order and without removal of duplicates, the links that the hrefs of
    its anchors contribute one by one. An href that is empty or begins
    with [#] once stripped contributes nothing; any other is resolved
    against the final URL of the page and then normalized, and is kept
    when the host of the result is the host of the page and the result is
    not the URL of the page. *)
Theorem extracted_links_same_host (final_url : string)
    (main_content : Element) (links : list string) :
  extract_links final_url main_content = Some links ->
  exists page,
    UrlParse.urlparse final_url = Some page
    /\ links = omap (kept_link final_url (netloc page)) (href_values main_content)
    /\ Forall
         (fun link =>
            exists raw full_link p,
              raw ∈ href_values main_content
              /\ PyStr.strip PyStr.is_space raw <> ""
              /\ PyStr.startswith "#" (PyStr.strip PyStr.is_space raw) = false
              /\ urljoin final_url (PyStr.strip PyStr.is_space raw) = Some full_link
              /\ _normalize_url full_link = Some link
              /\ UrlParse.urlparse link = Some p
              /\ netloc p = netloc page
              /\ link <> final_url)
         links
    /\ (forall raw,
          PyStr.strip PyStr.is_space raw = ""
          \/ PyStr.startswith "#" (PyStr.strip PyStr.is_space raw) = true ->
          kept_link final_url (netloc page) raw = None).
Proof.
  unfold extract_links.
  destruct (UrlParse.urlparse final_url) as [page|]; [|discriminate].
  intros E. apply link_loop_kept in E. simpl in E. subst links.
  exists page. split; [reflexivity|]. split; [reflexivity|].
  split; [|apply kept_link_skips].
  apply Forall_forall. intros link Hin.
  apply list_elem_of_omap in Hin as (raw & Hraw & Hk).
  destruct (kept_link_inv _ _ _ _ Hk) as (He & Hh & full_link & p & Hj & Hn & Hp & Hd & Hs).
  exists raw, full_link, p. now repeat split.
Qed.

(** C6, as amended: the requested URL is normalized, and the normalized
    URL is used both in the line printed and as the address of the one
    request of the task, sent with redirects allowed and a timeout of 60
    seconds; the raw URL is not requested. When the URL cannot be parsed
    the call ends with the exception and nothing is sent. *)
Theorem request_goes_to_normalized_url (url : string) (depth : Z)
    (parent_folder : option string) (st : state) :
  (forall nu,
     _normalize_url url = Some nu ->
     let request := mkRequest nu user_agent true 60 in
     world (state_of (process_page self url depth parent_folder st))
     = (requests_get (world st) request).1
     /\ exists rest,
          log (fetch_and_save self url depth parent_folder st).2
          = log st ++ Processing depth nu :: HttpGet request :: rest)
  /\ (_normalize_url url = None ->
      fetch_and_save self url depth parent_folder st = (Raised, st)).
Proof.
  split.
  - intros nu Hn request.
    destruct (process_page_request self url depth parent_folder st nu Hn)
      as (Hw & rest & Hlog).
    split; [exact Hw|].
    rewrite fetch_and_save_unfold.
    destruct (process_page self url depth parent_folder st)
      as [o s|final_url links s]; simpl in *; [now exists rest|].
    destruct (depth <? max_depth self)%Z; [|now exists rest].
    destruct (follow_links_log self links (depth + 1)
                (Some (hash_prefix final_url)) s) as (more & Hmore).
    exists (rest ++ more). rewrite Hmore, Hlog. now rewrite <- app_assoc.
  - intros Hn. rewrite fetch_and_save_unfold. unfold process_page. now rewrite Hn.
Qed.

(** C7, as amended: the visited test is made after the request and on
    the canonical form of the final URL of the response, not on the link.
    For a link whose request succeeds and whose response has a final URL
    with a canonical form that is already visited, the task prints its
    line, sends its one request, to the canonical form of the link, finds
    the final URL in the visited set and returns, leaving the visited set
    and the disk as they were; the loop then goes on with the remaining
    links. *)
Theorem visited_link_is_fetched_then_skipped (url : string) (depth : Z)
    (parent_folder : option string) (st : state) (rest : list string)
    (nu : string) (w : World) (resp : response) (final_url : string) :
  _normalize_url url = Some nu ->
  requests_get (world st) (the_request nu) = (w, Some resp) ->
  _normalize_url (resp_url resp) = Some final_url ->
  final_url ∈ visited_urls st ->
  let st' :=
    mkState w (visited_urls st) (disk st)
      (log st ++ [Processing depth nu; HttpGet (the_request nu);
                  AlreadyVisited final_url]) in
  fetch_and_save self url depth parent_folder st = (Returned, st')
  /\ requests_of (log st') = requests_of (log st) ++ [nu]
  /\ follow_links self (url :: rest) depth parent_folder st
     = follow_links self rest depth parent_folder st'.
Proof.
  intros Hn Hg Hf Hv st'.
  assert (E : fetch_and_save self url depth parent_folder st = (Returned, st')).
  { rewrite fetch_and_save_unfold.
    now rewrite (process_page_visited self _ _ _ _ _ _ _ _ Hn Hg Hf Hv). }
  split; [exact E|]. split.
  - unfold st', requests_of. simpl. now rewrite omap_app.
  - simpl. now rewrite E.
Qed.


End EngineClaims.

(** * Runs on the small web *)

Module CrawlExamples.
#[local] Existing Instance plain_urllib.
#[local] Existing Instance Toy.toy_web.
Import Toy.

Example init_fresh :
  init "output" 1 [] (mkFs ∅ ∅) = Some (depth_one, fresh).
Proof. vm_compute. reflexivity. Qed.

Example crawl_root_depth_one :
  tasks_of (log (fetch_and_save depth_one url_root 0 None fresh).2)
  = [(0%Z, url_root); (1%Z, url_a)].
Proof. vm_compute. reflexivity. Qed.

Example links_of_page :
  extract_links "http://h/links" links_page = Some [url_a; url_a].
Proof. vm_compute. reflexivity. Qed.

(** With [max_depth = 1] the crawl of the root fetches the root and its
    link, and not the link of that page. *)
Lemma depth_bound_respected_witness :
  max_depth depth_one = 1%Z
  /\ exists new,
       log (fetch_and_save depth_one url_root 0 None fresh).2 = log fresh ++ new
       /\ Forall (fun t => t.1 = 0%Z \/ t.1 = 1%Z) (tasks_of new)
       /\ requests_of new = (tasks_of new).*2.
Proof.
  split; [reflexivity|].
  exact (proj2 (proj2 (proj2
           (depth_bound_respected depth_one url_root 0 None fresh)))
           eq_refl eq_refl).
Defined.

Lemma one_write_per_url_witness :
  _normalize_url url_a = Some url_a
  /\ url_a ∈ visited_urls visited_a
  /\ exists st',
       fetch_and_save depth_one url_a 1 None visited_a = (Returned, st')
       /\ visited_urls st' = visited_urls visited_a
       /\ disk st' = disk visited_a
       /\ exists new, log st' = log visited_a ++ new /\ writes_of new = [].
Proof.
  split; [reflexivity|]. split; [now apply elem_of_singleton_2|].
  apply (proj1 (one_write_per_url depth_one) url_a 1%Z None visited_a url_a
           [the_request url_a] (mkResponse url_a url_a) url_a);
    [reflexivity | reflexivity | reflexivity | now apply elem_of_singleton_2].
Defined.

(** C2 as stated fails: the two links of the index page have the same
    digest8 token and the same file name, so the second is written over
    the file of the first in the same run. *)
Lemma colliding_urls_overwrite :
  url_one <> url_two
  /\ page_filepath depth_one (Some (hash_prefix url_index)) url_one = Some shared_path
  /\ page_filepath depth_one (Some (hash_prefix url_index)) url_two = Some shared_path
  /\ files (disk after_one) !! shared_path = Some (document url_one "one")
  /\ fetch_and_save depth_one url_index 0 None fresh
     = follow_links depth_one [url_two] 1 (Some (hash_prefix url_index)) after_one
  /\ files (disk (fetch_and_save depth_one url_index 0 None fresh).2) !! shared_path
     = Some (document url_two "two")
  /\ document url_one "one" <> document url_two "two".
Proof.
  split; [discriminate|].
  split; [vm_compute; reflexivity|].
  split; [vm_compute; reflexivity|].
  split; [vm_compute; reflexivity|].
  split; [vm_compute; reflexivity|].
  split; [vm_compute; reflexivity|].
  discriminate.
Qed.

Lemma extracted_links_same_host_witness :
  extract_links "http://h/links" links_page = Some [url_a; url_a]
  /\ exists parsed,
       UrlParse.urlparse "http://h/links" = Some parsed
       /\ [url_a; url_a]
          = omap (kept_link "http://h/links" (netloc parsed)) (page_hrefs links_page).
Proof.
  split; [reflexivity|].
  destruct (@extracted_links_same_host plain_urllib toy_web
              "http://h/links" links_page [url_a; url_a] eq_refl)
    as (parsed & Hp & Hl & _).
  now exists parsed.
Defined.

Lemma request_goes_to_normalized_url_witness :
  _normalize_url "http://h/p?x=1" = Some "http://h/p"
  /\ exists rest,
       log (fetch_and_save depth_one "http://h/p?x=1" 0 None fresh).2
       = log fresh ++ Processing 0 "http://h/p"
           :: HttpGet (mkRequest "http://h/p" user_agent true 60) :: rest.
Proof.
  split; [reflexivity|].
  exact (proj2 (proj1 (request_goes_to_normalized_url depth_one
                         "http://h/p?x=1" 0 None fresh) "http://h/p" eq_refl)).
Defined.

(** C6 as stated fails: for the raw URL [http://h/p?x=1] the one request
    the network receives is for [http://h/p]. *)
Lemma raw_url_is_not_requested :
  world (fetch_and_save depth_one "http://h/p?x=1" 0 None fresh).2
  = [mkRequest "http://h/p" user_agent true 60]
  /\ "http://h/p" <> "http://h/p?x=1".
Proof. split; [vm_compute; reflexivity | discriminate]. Qed.

Lemma visited_link_is_fetched_then_skipped_witness :
  _normalize_url url_a = Some url_a
  /\ url_a ∈ visited_urls visited_a
  /\ fetch_and_save depth_one url_a 1 None visited_a
     = (Returned,
        mkState [the_request url_a] (visited_urls visited_a) (disk visited_a)
          [Processing 1 url_a; HttpGet (the_request url_a); AlreadyVisited url_a]).
Proof.
  split; [reflexivity|]. split; [now apply elem_of_singleton_2|].
  apply (visited_link_is_fetched_then_skipped depth_one url_a 1%Z None visited_a []
           url_a [the_request url_a] (mkResponse url_a url_a) url_a);
    [reflexivity | reflexivity | reflexivity | now apply elem_of_singleton_2].
Defined.

(** C7 as stated fails: the page [http://h/a] links back to the root,
    which is visited when the links of the page are followed, and the
    root is requested a second time. *)
Lemma visited_link_is_requested_again :
  process_page depth_two url_a 1 (Some (hash_prefix url_root)) after_root
  = Persisted url_a [url_root] after_a
  /\ bool_decide (url_root ∈ visited_urls after_a) = true
  /\ world (follow_links depth_two [url_root] 2 (Some (hash_prefix url_a)) after_a).2
     = world after_a ++ [the_request url_root]
  /\ List.map req_url (world (fetch_and_save depth_two url_root 0 None fresh).2)
     = [url_root; url_a; url_root].
Proof.
  split; [vm_compute; reflexivity|].
  split; [vm_compute; reflexivity|].
  split; [vm_compute; reflexivity|].
  vm_compute; reflexivity.
Qed.

(** The test is not on the link: [http://h/a;b] is visited and is the
    link, but the request goes to its canonical form [http://h/a], which
    is not visited, and the page is written. *)
Example visited_link_is_written :
  _normalize_url "http://h/a;b" = Some url_a
  /\ writes_of
       (log (fetch_and_save depth_one "http://h/a;b" 1 None
               (mkState [] {[ "http://h/a;b" ]} (mkFs {[ "output" ]} ∅) [])).2)
     = [("output/2ce72765/a.md", url_a)].
Proof. split; vm_compute; reflexivity. Qed.


End CrawlExamples.

(** * Further facts: file names and tokens *)

Module NameFacts.
Import PyStr PyStrFacts.

Lemma sanitize_char_allowed c :
  char_in forbidden_filename_chars (sanitize_char c) = false.
Proof. destruct c as [[] [] [] [] [] [] [] []]; vm_compute; reflexivity. Qed.

Lemma any_map_none (q : ascii -> bool) f (s : string) :
  (forall c, q (f c) = false) -> any q (map f s) = false.
Proof.
  intros Hf. induction s as [|c s IH]; simpl; [reflexivity|].
  now rewrite Hf, IH.
Qed.

Lemma any_drop q n (s : string) : any q s = false -> any q (drop n s) = false.
Proof.
  intros Hs. rewrite (take_drop n s) in Hs. now apply any_false_app in Hs as [_ ?].
Qed.

Lemma any_take q n (s : string) : any q s = false -> any q (take n s) = false.
Proof.
  intros Hs. rewrite (take_drop n s) in Hs. now apply any_false_app in Hs as [? _].
Qed.

Lemma all_take q n (s : string) : all q s = true -> all q (take n s) = true.
Proof.
  intros Hs. rewrite (take_drop n s), all_app in Hs.
  now apply andb_true_iff in Hs as [? _].
Qed.

Lemma length_take_exact n (s : string) :
  (n <= String.length s)%nat -> String.length (take n s) = n.
Proof.
  revert s. induction n as [|n IH]; intros [|c s]; simpl; try lia.
  intros Hn. rewrite IH; lia.
Qed.

Lemma length_nonempty (s : string) : is_empty s = false -> (1 <= String.length s)%nat.
Proof. destruct s; simpl; [discriminate | lia]. Qed.

(** *** The hexadecimal digest *)

Lemma le_bytes_length n x : List.length (MD5.le_bytes n x) = n.
Proof. unfold MD5.le_bytes. now rewrite List.length_map, List.length_seq. Qed.

Lemma le_bytes_small n x : Forall (fun b => (b < 256)%N) (MD5.le_bytes n x).
Proof.
  unfold MD5.le_bytes. apply Forall_forall. intros b Hb.
  apply list_elem_of_In, in_map_iff in Hb as (i & <- & _).
  change 255%N with (N.ones 8). rewrite N.land_ones.
  apply N.mod_lt. discriminate.
Qed.

Lemma digest_bytes msg :
  List.length (MD5.digest msg) = 16%nat
  /\ Forall (fun b => (b < 256)%N) (MD5.digest msg).
Proof.
  unfold MD5.digest.
  destruct (fold_left _ _ _) as [[[a b] c] d].
  split.
  - rewrite !List.length_app, !le_bytes_length. reflexivity.
  - repeat (apply Forall_app; split); apply le_bytes_small.
Qed.

Lemma hex_digit_of_nat k :
  (k < 16)%nat -> is_hex_char (MD5.hex_digit (N.of_nat k)) = true.
Proof. intros Hk. do 16 (destruct k as [|k]; [reflexivity|]). lia. Qed.

Lemma hex_digit_is_hex n : (n < 16)%N -> is_hex_char (MD5.hex_digit n) = true.
Proof.
  intros Hn. rewrite <- (N2Nat.id n). apply hex_digit_of_nat. lia.
Qed.

Lemma hex_length bs : String.length (MD5.hex bs) = (2 * List.length bs)%nat.
Proof. induction bs as [|b bs IH]; simpl; [reflexivity | rewrite IH; lia]. Qed.

Lemma hex_all_hex bs :
  Forall (fun b => (b < 256)%N) bs -> all is_hex_char (MD5.hex bs) = true.
Proof.
  induction 1 as [|b bs Hb _ IH]; [reflexivity|].
  change (MD5.hex (b :: bs)) with
    (String (MD5.hex_digit (N.shiftr b 4))
       (String (MD5.hex_digit (N.land b 15)) (MD5.hex bs))).
  cbn [all]. rewrite IH, !hex_digit_is_hex; [reflexivity| |].
  - change 15%N with (N.ones 4). rewrite N.land_ones. apply N.mod_lt. discriminate.
  - rewrite N.shiftr_div_pow2. change (2 ^ 4)%N with 16%N.
    apply N.Div0.div_lt_upper_bound. lia.
Qed.

Lemma hexdigest_shape s :
  String.length (MD5.hexdigest s) = 32%nat
  /\ all is_hex_char (MD5.hexdigest s) = true.
Proof.
  unfold MD5.hexdigest.
  destruct (digest_bytes (encode s)) as [Hl Hs].
  split; [now rewrite hex_length, Hl | now apply hex_all_hex].
Qed.


Lemma hex_char_allowed c :
  is_hex_char c = true -> char_in ("/" +:+ forbidden_filename_chars) c = false.
Proof. destruct c as [[] [] [] [] [] [] [] []]; vm_compute; congruence. Qed.

Lemma forbidden_has_slash c :
  is_char "/" c = true -> char_in forbidden_filename_chars c = true.
Proof. destruct c as [[] [] [] [] [] [] [] []]; vm_compute; congruence. Qed.

Lemma hex_no_slash (s : string) :
  all is_hex_char s = true -> any (is_char "/") s = false.
Proof.
  apply all_implies_none. intros c Hc. apply hex_char_allowed in Hc.
  simpl in Hc. apply orb_false_iff in Hc as [Hc _]. exact Hc.
Qed.

Lemma none_not_endswith c (s : string) :
  any (is_char c) s = false -> endswith c s = false.
Proof.
  induction s as [|x s IH]; [reflexivity|]. simpl.
  intros [Hx Hs]%orb_false_iff. destruct s as [|y s].
  - unfold is_char in Hx. now rewrite Ascii.eqb_sym.
  - now apply IH.
Qed.

Lemma none_not_startswith c (s : string) :
  any (is_char c) s = false -> startswith c s = false.
Proof.
  destruct s as [|x s]; [reflexivity|]. simpl.
  intros [Hx _]%orb_false_iff. unfold is_char in Hx. now rewrite Ascii.eqb_sym.
Qed.

Lemma not_endswith_not_all c (s : string) :
  s <> "" -> endswith c s = false -> all (is_char c) s = false.
Proof.
  induction s as [|x s IH]; [congruence|]. intros _ He.
  destruct s as [|y s].
  - simpl in *. unfold is_char. now rewrite Ascii.eqb_sym, He.
  - change (all (is_char c) (String x (String y s)))
      with (is_char c x && all (is_char c) (String y s)).
    rewrite IH; [apply andb_false_r | discriminate | exact He].
Qed.

Lemma rbreak_exact p (a b : string) c :
  p c = true -> any p b = false ->
  rbreak p (a +:+ String c b) = (a +:+ String c "", b).
Proof.
  intros Hc Hb.
  assert (E0 : rbreak p b = ("", b)).
  { clear Hc. induction b as [|x b IH]; [reflexivity|]. simpl in *.
    apply orb_false_iff in Hb as [Hx Hb]. now rewrite (IH Hb), Hx. }
  induction a as [|x a IH]; simpl.
  - now rewrite E0, Hc.
  - rewrite IH. destruct a; reflexivity.
Qed.

(** [join] when the second part is relative. *)
Lemma join_relative (a b : string) :
  startswith "/" b = false ->
  PosixPath.join a b = a +:+ b \/ PosixPath.join a b = a +:+ "/" +:+ b.
Proof.
  intros Hb. unfold PosixPath.join. rewrite Hb.
  destruct (is_empty a || endswith "/" a); [now left | now right].
Qed.

Lemma join_plain (a b : string) :
  a <> "" -> endswith "/" a = false -> startswith "/" b = false ->
  PosixPath.join a b = a +:+ "/" +:+ b.
Proof.
  intros Ha He Hb. unfold PosixPath.join. rewrite Hb, He.
  now apply is_empty_false in Ha as ->.
Qed.

Lemma join_initial (a b : string) :
  startswith "/" b = false -> initial a (PosixPath.join a b).
Proof.
  intros Hb. destruct (join_relative a b Hb) as [-> | ->]; eexists; reflexivity.
Qed.

Lemma join_endswith (a b : string) :
  b <> "" -> startswith "/" b = false -> endswith "/" b = false ->
  PosixPath.join a b <> "" /\ endswith "/" (PosixPath.join a b) = false.
Proof.
  intros Hb Hs He. destruct (join_relative a b Hs) as [-> | ->].
  - split; [destruct a, b; simpl; congruence|].
    now rewrite endswith_app_nonempty.
  - split; [destruct a; discriminate|].
    rewrite endswith_app_nonempty by discriminate.
    change ("/" +:+ b) with (String "/" b). now rewrite endswith_cons.
Qed.

Lemma dirname_join (folder name : string) :
  folder <> "" -> endswith "/" folder = false ->
  any (is_char "/") name = false ->
  PosixPath.dirname (folder +:+ "/" +:+ name) = folder.
Proof.
  intros Hf He Hn. unfold PosixPath.dirname.
  change (folder +:+ "/" +:+ name) with (folder +:+ String "/" name).
  rewrite (rbreak_exact (is_char "/") folder name "/" eq_refl Hn).
  assert (Hne : is_empty (folder +:+ "/") = false) by (destruct folder; reflexivity).
  assert (Hall : all (is_char "/") (folder +:+ "/") = false).
  { rewrite all_app, (not_endswith_not_all _ _ Hf He). reflexivity. }
  rewrite Hne, Hall. cbn [negb andb].
  rewrite rstrip_app. change (rstrip (is_char "/") "/") with "". cbn [is_empty].
  now apply rstrip_fixed.
Qed.

Section Names.
Context `{UrlLib}.

Lemma hash_prefix_shape u :
  String.length (hash_prefix u) = 8%nat /\ all is_hex_char (hash_prefix u) = true.
Proof.
  destruct (hexdigest_shape u) as [Hl Hh]. unfold hash_prefix. split.
  - apply length_take_exact. lia.
  - now apply all_take.
Qed.

Lemma hash_prefix_relative u :
  hash_prefix u <> "" /\ startswith "/" (hash_prefix u) = false
  /\ endswith "/" (hash_prefix u) = false.
Proof.
  destruct (hash_prefix_shape u) as [Hl Hh].
  pose proof (hex_no_slash _ Hh) as Hs.
  split; [intros E; rewrite E in Hl; discriminate|].
  split; [now apply none_not_startswith | now apply none_not_endswith].
Qed.

Lemma page_folder_shape self parent u :
  page_folder self parent u <> "" /\ endswith "/" (page_folder self parent u) = false.
Proof.
  destruct (hash_prefix_relative u) as (Hne & Hs & He).
  unfold page_folder. now apply join_endswith.
Qed.

Lemma filename_shape u filename :
  _filename_from_url u = Some filename ->
  exists stem,
    filename = stem +:+ ".md"
    /\ (1 <= String.length stem <= 50)%nat
    /\ any (char_in forbidden_filename_chars) filename = false.
Proof.
  unfold _filename_from_url. destruct (UrlParse.urlparse u) as [p|]; [|discriminate].
  intros [= <-].
  set (path' := if is_empty (strip (is_char "/") (path p)) then "index"
                else strip (is_char "/") (path p)).
  assert (Hp : (1 <= String.length path')%nat).
  { unfold path'. destruct (is_empty _) eqn:E; [simpl; lia | now apply length_nonempty]. }
  set (safe := map sanitize_char path').
  assert (Hlen : String.length safe = String.length path') by apply length_map.
  assert (Hsafe : any (char_in forbidden_filename_chars) safe = false)
    by (apply any_map_none, sanitize_char_allowed).
  eexists. split; [reflexivity|].
  destruct (50 <? String.length safe)%nat eqn:E.
  - apply Nat.ltb_lt in E. unfold last. rewrite length_drop. split; [lia|].
    rewrite any_app, (any_drop _ _ _ Hsafe). reflexivity.
  - apply Nat.ltb_ge in E. split; [lia|]. rewrite any_app, Hsafe. reflexivity.
Qed.

Lemma filename_relative u filename :
  _filename_from_url u = Some filename -> any (is_char "/") filename = false.
Proof.
  intros Hf. destruct (filename_shape u filename Hf) as (_ & _ & _ & Hs).
  revert Hs. apply UrlFacts.any_weaken. apply forbidden_has_slash.
Qed.

Lemma fallback_name_relative filepath :
  any (is_char "/") (take 10 (MD5.hexdigest filepath) +:+ ".md") = false.
Proof.
  rewrite any_app.
  rewrite (hex_no_slash _ (all_take _ 10 _ (proj2 (hexdigest_shape filepath)))).
  reflexivity.
Qed.

(** The name under which [choose_filepath] writes. *)
Lemma choose_filepath_name folder filename :
  folder <> "" -> endswith "/" folder = false ->
  any (is_char "/") filename = false ->
  exists name,
    choose_filepath folder filename = folder +:+ "/" +:+ name
    /\ any (is_char "/") name = false
    /\ (String.length name <= Nat.max (String.length filename) 13)%nat.
Proof.
  intros Hf He Hn. unfold choose_filepath, plain_filepath, fallback_filepath.
  destruct (240 <? _)%nat.
  - eexists. split; [|split; [apply fallback_name_relative|]].
    + apply join_plain; try assumption.
      apply none_not_startswith, fallback_name_relative.
    + pose proof (length_take 10 (MD5.hexdigest (PosixPath.join folder filename))).
      rewrite length_append. change (String.length ".md") with 3%nat. lia.
  - exists filename. split; [|split; [exact Hn | lia]].
    apply join_plain; try assumption. now apply none_not_startswith.
Qed.

End Names.

End NameFacts.

(** * Further properties of the path builder *)

Section PathBuilderExtras.
Context `{UrlLib}.
Import PyStr PyStrFacts NameFacts.

(** X1: a file name made by [_filename_from_url] is a stem of 1 to 50
    characters followed by [.md], and none of its characters is one of
    the nine characters the regular expression replaces; in particular it
    holds no path separator. *)
Theorem filename_is_safe (url filename : string) :
  _filename_from_url url = Some filename ->
  exists stem,
    filename = stem +:+ ".md"
    /\ (1 <= String.length stem <= 50)%nat
    /\ any (char_in forbidden_filename_chars) filename = false
    /\ any (is_char "/") filename = false.
Proof.
  intros Hf. destruct (filename_shape url filename Hf) as (stem & E & Hl & Hs).
  exists stem. repeat split; try assumption; try lia.
  exact (filename_relative url filename Hf).
Qed.

(** X2: whatever the URL, the folder token is exactly 8 lowercase
    hexadecimal characters, and the replacement file name of an over-long
    path is exactly 10 such characters followed by [.md]. *)
Theorem digest_tokens_are_hex (final_url filepath : string) :
  String.length (hash_prefix final_url) = 8%nat
  /\ all is_hex_char (hash_prefix final_url) = true
  /\ exists digest10,
       take 10 (MD5.hexdigest filepath) +:+ ".md" = digest10 +:+ ".md"
       /\ String.length digest10 = 10%nat
       /\ all is_hex_char digest10 = true.
Proof.
  destruct (hash_prefix_shape final_url) as [Hl Hh].
  destruct (hexdigest_shape filepath) as [Hl' Hh'].
  split; [exact Hl|]. split; [exact Hh|].
  exists (take 10 (MD5.hexdigest filepath)). split; [reflexivity|].
  split; [apply length_take_exact; lia | now apply all_take].
Qed.

(** X3: the file of a page lies directly in the folder of the page: the
    path written is the folder, a slash and a name without slash, so the
    directory made at line 122 is the folder made at line 110. *)
Theorem document_lies_in_page_folder (self : MarkdownExtractor)
    (parent_folder : option string) (final_url filename : string) :
  _filename_from_url final_url = Some filename ->
  let folder := page_folder self parent_folder final_url in
  exists name,
    page_filepath self parent_folder final_url = Some (folder +:+ "/" +:+ name)
    /\ any (is_char "/") name = false
    /\ PosixPath.dirname (folder +:+ "/" +:+ name) = folder.
Proof.
  intros Hf folder.
  destruct (page_folder_shape self parent_folder final_url) as [Hne He].
  destruct (choose_filepath_name folder filename Hne He
              (filename_relative _ _ Hf)) as (name & E & Hn & _).
  exists name. unfold page_filepath. rewrite Hf. fold folder. rewrite E.
  split; [reflexivity|]. split; [exact Hn|]. now apply dirname_join.
Qed.

(** X4: under a base folder that is not empty and does not end in a
    slash, the folder of the root page is [base/digest8], and the folder
    of a page reached from a page [parent] is
    [base/digest8(parent)/digest8], whatever the depth: folders never nest
    deeper than two levels below the base. *)
Theorem folder_layout (self : MarkdownExtractor) (final_url : string) :
  base_folder self <> "" -> endswith "/" (base_folder self) = false ->
  page_folder self None final_url
  = base_folder self +:+ "/" +:+ hash_prefix final_url
  /\ forall parent_url,
       page_folder self (Some (hash_prefix parent_url)) final_url
       = base_folder self +:+ "/" +:+ hash_prefix parent_url
         +:+ "/" +:+ hash_prefix final_url.
Proof.
  intros Hb He. unfold page_folder.
  destruct (hash_prefix_relative final_url) as (_ & Hs & _).
  split; [now apply join_plain|].
  intros parent_url.
  destruct (hash_prefix_relative parent_url) as (Hpn & Hps & Hpe).
  rewrite (join_plain _ _ Hb He Hps).
  rewrite join_plain; [now rewrite !append_assoc | destruct (base_folder self); discriminate | | exact Hs].
  rewrite endswith_app_nonempty by discriminate.
  change ("/" +:+ hash_prefix parent_url) with (String "/" (hash_prefix parent_url)).
  now rewrite endswith_cons.
Qed.

End PathBuilderExtras.

Module PathBuilderExtraExamples.
#[local] Existing Instance plain_urllib.
Import PyStr Toy.

Lemma filename_is_safe_witness :
  _filename_from_url "http://h/a/b:c*d/" = Some "a_b_c_d.md"
  /\ exists stem,
       "a_b_c_d.md" = stem +:+ ".md"
       /\ (1 <= String.length stem <= 50)%nat
       /\ any (char_in forbidden_filename_chars) "a_b_c_d.md" = false
       /\ any (is_char "/") "a_b_c_d.md" = false.
Proof.
  split; [reflexivity|].
  exact (filename_is_safe "http://h/a/b:c*d/" "a_b_c_d.md" eq_refl).
Defined.

Lemma document_lies_in_page_folder_witness :
  _filename_from_url url_a = Some "a.md"
  /\ exists name,
       page_filepath depth_one (Some (hash_prefix url_root)) url_a
       = Some (page_folder depth_one (Some (hash_prefix url_root)) url_a
               +:+ "/" +:+ name)
       /\ any (is_char "/") name = false
       /\ PosixPath.dirname
            (page_folder depth_one (Some (hash_prefix url_root)) url_a
             +:+ "/" +:+ name)
          = page_folder depth_one (Some (hash_prefix url_root)) url_a.
Proof.
  split; [reflexivity|].
  exact (document_lies_in_page_folder depth_one (Some (hash_prefix url_root))
           url_a "a.md" eq_refl).
Defined.

Lemma folder_layout_witness :
  base_folder depth_one <> "" /\ endswith "/" (base_folder depth_one) = false
  /\ page_folder depth_one None url_root
     = base_folder depth_one +:+ "/" +:+ hash_prefix url_root.
Proof.
  split; [discriminate|]. split; [reflexivity|].
  exact (proj1 (folder_layout depth_one url_root
                  ltac:(discriminate) eq_refl)).
Defined.

End PathBuilderExtraExamples.

(** * Further properties of the normalizer *)

Module NormalizerFacts.
Import PyStr PyStrFacts UrlParse UrlFacts NameFacts.

Lemma lstrip_app p (a b : string) :
  lstrip p (a +:+ b)
  = if is_empty (lstrip p a) then lstrip p b else lstrip p a +:+ b.
Proof.
  induction a as [|x a IH]; simpl.
  - destruct (lstrip p b); reflexivity.
  - destruct (p x); [exact IH | reflexivity].
Qed.

Lemma remove_app p (a b : string) : remove p (a +:+ b) = remove p a +:+ remove p b.
Proof.
  induction a as [|x a IH]; simpl; [reflexivity|].
  destruct (p x); simpl; now rewrite IH.
Qed.

Lemma any_lstrip q p (s : string) : any q s = false -> any q (lstrip p s) = false.
Proof.
  induction s as [|x s IH]; simpl; [reflexivity|].
  intros Hs. destruct (p x); [|exact Hs].
  apply orb_false_iff in Hs as [_ Hs]. now apply IH.
Qed.

Lemma any_remove_other q p (s : string) : any q s = false -> any q (remove p s) = false.
Proof.
  induction s as [|x s IH]; simpl; [reflexivity|].
  intros [Hx Hs]%orb_false_iff. destruct (p x); simpl; [|rewrite Hx]; now apply IH.
Qed.

Lemma opens_tail_clean t :
  opens_tail t ->
  lstrip is_c0_or_space t = t /\ opens_tail (remove is_unsafe t).
Proof.
  intros [-> | (c & t' & -> & Hc)]; [split; [reflexivity | now left]|].
  assert (Hc0 : is_c0_or_space c = false /\ is_unsafe c = false).
  { revert Hc. destruct c as [[] [] [] [] [] [] [] []]; vm_compute; intros; try discriminate; split; reflexivity. }
  destruct Hc0 as [H0 Hu]. simpl. rewrite H0, Hu. split; [reflexivity|].
  right. eauto.
Qed.

Lemma break_app_found p (s a b t : string) :
  break p s = (a, b) -> b <> "" -> break p (s +:+ t) = (a, b +:+ t).
Proof.
  revert a b. induction s as [|x s IH]; simpl; intros a b E Hb.
  - inversion E; subst. congruence.
  - destruct (p x); [now inversion E|].
    destruct (break p s) as [a' b'] eqn:E'. inversion E; subst.
    now rewrite (IH a' b eq_refl Hb).
Qed.

Lemma break_app_none p (s t : string) :
  any p s = false ->
  break p (s +:+ t) = (s +:+ fst (break p t), snd (break p t)).
Proof.
  induction s as [|x s IH]; simpl; intros Hs.
  - now destruct (break p t).
  - apply orb_false_iff in Hs as [Hx Hs]. now rewrite Hx, (IH Hs).
Qed.

(** Breaking at a delimiter is not changed by a tail that begins with
    that delimiter. *)
Lemma break_with_tail p (s t : string) :
  (t = "" \/ exists c t', t = String c t' /\ p c = true) ->
  break p (s +:+ t) = (fst (break p s), snd (break p s) +:+ t).
Proof.
  intros Ht. destruct (break p s) as [a b] eqn:E. simpl.
  destruct b as [|y b].
  - pose proof (break_app _ _ _ _ E) as Es. rewrite append_empty_r in Es.
    subst a. apply break_exact; [exact (break_fst_none _ _ _ _ E) | exact Ht].
  - now apply break_app_found.
Qed.

Lemma split_scheme_tail u t s r :
  any (char_in "?#") u = false -> opens_tail t ->
  split_scheme u = (s, r) ->
  split_scheme (u +:+ t) = (s, r +:+ t) /\ any (char_in "?#") r = false.
Proof.
  intros Hu Ht. unfold split_scheme.
  destruct (break (is_char ":") u) as [pre rest] eqn:E.
  pose proof (break_app _ _ _ _ E) as Eu.
  assert (Hparts : any (char_in "?#") pre = false /\ any (char_in "?#") rest = false)
    by (rewrite Eu in Hu; now apply any_false_app in Hu).
  destruct Hparts as [Hpre Hrest].
  destruct rest as [|x rest].
  - (* no colon in [u] *)
    rewrite append_empty_r in Eu. subst pre.
    intros Esr. assert (s = "" /\ r = u) as [-> ->]
      by (destruct u; inversion Esr; split; reflexivity).
    split; [|exact Hu].
    rewrite (break_app_none _ _ _ (break_fst_none _ _ _ _ E)).
    destruct (break (is_char ":") t) as [a b] eqn:Et. simpl.
    destruct Ht as [-> | (c & t' & -> & Hc)].
    { simpl in Et. inversion Et; subst. rewrite append_empty_r.
      destruct u; reflexivity. }
    destruct b as [|y b]; [destruct (u +:+ a); reflexivity|].
    assert (Ha : exists a', a = String c a').
    { simpl in Et. destruct (is_char ":" c) eqn:Hcc.
      - exfalso. revert Hc Hcc. unfold is_char.
        destruct c as [[] [] [] [] [] [] [] []]; vm_compute; congruence.
      - destruct (break (is_char ":") t') as [a' b']. inversion Et. eauto. }
    destruct Ha as [a' ->].
    assert (Hbad : all is_scheme_char (u +:+ String c a') = false).
    { rewrite all_app. cbn [all].
      assert (is_scheme_char c = false) as ->
        by (revert Hc; destruct c as [[] [] [] [] [] [] [] []]; vm_compute; congruence).
      now rewrite andb_false_r. }
    destruct (u +:+ String c a') as [|c0 w] eqn:Ew; [reflexivity|].
    now rewrite Hbad, andb_false_r.
  - (* a colon in [u] *)
    rewrite (break_app_found _ _ _ _ t E) by discriminate.
    destruct pre as [|c0 pre]; cbv beta iota.
    + intros Esr. inversion Esr; subst. split; [reflexivity | exact Hu].
    + destruct (is_ascii_alpha c0 && all is_scheme_char (String c0 pre));
        intros Esr; inversion Esr; subst.
      * split; [reflexivity|]. simpl in Hrest. now apply orb_false_iff in Hrest as [_ ?].
      * split; [reflexivity | exact Hu].
Qed.

Lemma opens_tail_head c :
  char_in "?#" c = true -> c = "?"%char \/ c = "#"%char.
Proof.
  simpl. rewrite orb_false_r. intros [Hc | Hc]%orb_true_iff;
    apply Ascii.eqb_eq in Hc; auto.
Qed.

Lemma take2_tail r t :
  opens_tail t ->
  String.eqb (take 2 (r +:+ t)) "//" = String.eqb (take 2 r) "//".
Proof.
  intros Ht. destruct r as [|x [|y r]]; [| |reflexivity].
  - destruct Ht as [-> | (c & t' & -> & Hc)]; [reflexivity|].
    destruct (opens_tail_head c Hc) as [-> | ->]; destruct t'; reflexivity.
  - destruct Ht as [-> | (c & t' & -> & Hc)]; [reflexivity|].
    destruct (opens_tail_head c Hc) as [-> | ->];
      destruct x as [[] [] [] [] [] [] [] []]; reflexivity.
Qed.

Lemma drop2_tail r t :
  String.eqb (take 2 r) "//" = true -> drop 2 (r +:+ t) = drop 2 r +:+ t.
Proof. destruct r as [|x [|y r]]; [discriminate | | reflexivity].
  destruct x as [[] [] [] [] [] [] [] []]; discriminate. Qed.


Lemma path_with_tail y t :
  any (char_in "?#") y = false -> opens_tail t ->
  fst (split_once "?" (fst (split_once "#" (y +:+ t)))) = y.
Proof.
  intros Hy Ht.
  assert (Hq : any (is_char "?") y = false)
    by (revert Hy; apply any_weaken; intros c Hc; simpl; unfold is_char in Hc; now rewrite Hc).
  assert (Hf : any (is_char "#") y = false)
    by (revert Hy; apply any_weaken; intros c Hc; simpl; unfold is_char in Hc;
        rewrite Hc; now rewrite orb_true_r).
  destruct Ht as [-> | (c & t' & -> & Hc)].
  - rewrite append_empty_r, (split_once_fixed _ _ Hf). simpl.
    now rewrite (split_once_fixed _ _ Hq).
  - destruct (opens_tail_head c Hc) as [-> | ->].
    + assert (E : exists z, fst (split_once "#" (y +:+ String "?" t')) = y +:+ String "?" z).
      { unfold split_once.
        change (y +:+ String "?" t') with (y +:+ "?" +:+ t').
        rewrite <- append_assoc.
        rewrite break_app_none by (rewrite any_app, Hf; reflexivity).
        destruct (break (is_char "#") t') as [a b]. simpl.
        destruct (is_empty b); simpl; rewrite append_assoc; eauto. }
      destruct E as [z ->]. unfold split_once.
      rewrite (break_exact _ _ _ Hq) by (right; eauto). reflexivity.
    + unfold split_once at 2.
      rewrite (break_exact _ _ _ Hf) by (right; eauto). simpl.
      now rewrite (split_once_fixed _ _ Hq).
Qed.

Section Tail.
Context `{UrlLib}.

(** A query or a fragment added to a URL that has neither changes
    neither scheme nor host nor path. *)
Lemma urlsplit_tail u t :
  any (char_in "?#") u = false -> opens_tail t ->
  (urlsplit u = None /\ urlsplit (u +:+ t) = None)
  \/ exists s n p q f q' f',
       urlsplit u = Some (s, n, p, q, f)
       /\ urlsplit (u +:+ t) = Some (s, n, p, q', f').
Proof.
  intros Hu Ht. unfold urlsplit.
  destruct (opens_tail_clean t Ht) as [Hl Ht1].
  assert (Hclean : remove is_unsafe (lstrip is_c0_or_space (u +:+ t))
                   = remove is_unsafe (lstrip is_c0_or_space u)
                     +:+ remove is_unsafe t).
  { rewrite lstrip_app. destruct (lstrip is_c0_or_space u) as [|a w]; simpl is_empty;
      cbv iota; [now rewrite Hl | apply remove_app]. }
  rewrite Hclean.
  set (u1 := remove is_unsafe (lstrip is_c0_or_space u)).
  set (t1 := remove is_unsafe t) in *.
  assert (Hu1 : any (char_in "?#") u1 = false)
    by (apply any_remove_other, any_lstrip, Hu).
  destruct (split_scheme u1) as [s r] eqn:Es.
  destruct (split_scheme_tail u1 t1 s r Hu1 Ht1 Es) as [-> Hr].
  rewrite (take2_tail r t1 Ht1).
  assert (Ht1' : t1 = "" \/ exists c t', t1 = String c t' /\ char_in "/?#" c = true).
  { destruct Ht1 as [-> | (c & t' & -> & Hc)]; [now left | right].
    exists c, t'. split; [reflexivity|].
    destruct (opens_tail_head c Hc) as [-> | ->]; reflexivity. }
  assert (Hnet : exists n y,
             (if String.eqb (take 2 r) "//" then _splitnetloc r else ("", r)) = (n, y)
             /\ (if String.eqb (take 2 r) "//" then _splitnetloc (r +:+ t1)
                 else ("", r +:+ t1)) = (n, y +:+ t1)
             /\ any (char_in "?#") y = false).
  { destruct (String.eqb (take 2 r) "//") eqn:E2.
    - unfold _splitnetloc. rewrite (drop2_tail r t1 E2).
      rewrite (break_with_tail _ _ _ Ht1').
      destruct (break (char_in "/?#") (drop 2 r)) as [n y] eqn:Eb.
      exists n, y. split; [reflexivity|]. split; [reflexivity|].
      apply break_app in Eb.
      assert (Hd : any (char_in "?#") (drop 2 r) = false) by now apply any_drop.
      rewrite Eb in Hd. now apply any_false_app in Hd as [_ ?].
    - exists "", r. now repeat split. }
  destruct Hnet as (n & y & -> & -> & Hy).
  destruct (netloc_ok n); [right | now left].
  pose proof (path_with_tail y t1 Hy Ht1) as P1.
  pose proof (path_with_tail y "" Hy (or_introl eq_refl)) as P0.
  rewrite append_empty_r in P0.
  destruct (split_once "#" y) as [y0 f0].
  destruct (split_once "#" (y +:+ t1)) as [y1 f1].
  simpl in P0, P1.
  destruct (split_once "?" y0) as [p0 q0].
  destruct (split_once "?" y1) as [p1 q1].
  simpl in P0, P1. subst p0 p1.
  now exists s, n, y, q0, f0, q1, f1.
Qed.

Lemma urlparse_tail u t :
  any (char_in "?#") u = false -> opens_tail t ->
  (urlparse u = None /\ urlparse (u +:+ t) = None)
  \/ exists p p',
       urlparse u = Some p /\ urlparse (u +:+ t) = Some p'
       /\ scheme p' = scheme p /\ netloc p' = netloc p /\ path p' = path p.
Proof.
  intros Hu Ht. unfold urlparse.
  destruct (urlsplit_tail u t Hu Ht)
    as [[-> ->] | (s & n & p & q & f & q' & f' & -> & ->)]; [now left | right].
  destruct (if in_uses_params s && any (is_char ";") p
            then _splitparams p else (p, "")) as [p1 pa].
  eexists _, _. repeat split; reflexivity.
Qed.

End Tail.

End NormalizerFacts.

Section NormalizerExtras.
Context `{UrlLib}.
Import PyStr PyStrFacts UrlParse UrlFacts NameFacts NormalizerFacts.

Lemma normalize_safe u v : _normalize_url u = Some v -> any is_unsafe v = false.
Proof.
  unfold _normalize_url. destruct (urlparse u) as [p|] eqn:E; [|discriminate].
  intros [= <-]. apply any_rstrip.
  pose proof (urlparse_well_split _ _ E) as W.
  apply any_false_app. split.
  - destruct (ws_scheme _ _ _ W) as [-> | [Hv _]]; [reflexivity|].
    destruct (valid_scheme_head _ Hv) as (c0 & s' & -> & _ & Hall).
    exact (all_implies_none _ _ _ scheme_char_not_unsafe Hall).
  - apply (any_false_app is_unsafe "://" (netloc p +:+ path p)).
    split; [reflexivity|]. apply any_false_app.
    split; [exact (ws_netloc_safe _ _ _ W) | exact (ws_path_safe _ _ _ W)].
Qed.

(** Two texts that agree up to and including a first line break, where
    the first lines hold no line break, agree on the first line and on
    what follows. *)
Lemma first_line_unique (v v' r r' : string) :
  any is_unsafe v = false -> any is_unsafe v' = false ->
  v +:+ newline +:+ r = v' +:+ newline +:+ r' -> v = v' /\ r = r'.
Proof.
  revert v'. induction v as [|x v IH]; intros [|x' v'] Hv Hv' E.
  - simpl in E. inversion E. now split.
  - simpl in E, Hv'. inversion E; subst x'. discriminate.
  - simpl in E, Hv. inversion E; subst x. discriminate.
  - simpl in E, Hv, Hv'. inversion E; subst x'.
    apply orb_false_iff in Hv as [_ Hv]. apply orb_false_iff in Hv' as [_ Hv'].
    destruct (IH v' Hv Hv' H2) as [-> ->]. now split.
Qed.

(** X5: a query string or a fragment added to a URL that has neither
    changes neither its canonical form nor its file name. *)
Theorem query_and_fragment_are_ignored (u : string) (c : ascii) (t : string) :
  any (char_in "?#") u = false -> char_in "?#" c = true ->
  _normalize_url (u +:+ String c t) = _normalize_url u
  /\ _filename_from_url (u +:+ String c t) = _filename_from_url u.
Proof.
  intros Hu Hc. unfold _normalize_url, _filename_from_url.
  destruct (urlparse_tail u (String c t) Hu) as [[-> ->] | (p & p' & -> & -> & Es & En & Ep)];
    [right; eauto | now split |].
  now rewrite Es, En, Ep.
Qed.

(** X6: for an absolute URL with a host, that is a URL in which
    [urlparse] finds a scheme and a host that are not empty, and with no
    semicolon in the last segment of its path once the trailing slashes
    are removed when the scheme takes parameters, the file name of the
    canonical URL is the file name of the URL itself: trailing slashes,
    scheme and host do not enter the name. *)
Theorem filename_of_canonical_url (u : string) (p : ParseResult) :
  urlparse u = Some p -> scheme p <> "" -> netloc p <> "" ->
  (in_uses_params (scheme p) = true ->
   any (is_char ";") (last_segment (rstrip (is_char "/") (path p))) = false) ->
  exists v,
    _normalize_url u = Some v /\ _filename_from_url v = _filename_from_url u.
Proof.
  intros E Hs Hn Hpar.
  pose proof (well_split_rstrip _ _ _ (urlparse_well_split _ _ E)) as W.
  eexists. split; [exact (normalize_with_host _ _ E Hn)|].
  unfold _filename_from_url.
  rewrite (urlparse_canonical _ _ _ W Hs Hn Hpar), E. simpl.
  unfold strip. now rewrite rstrip_idem.
Qed.

(** X7: a canonical URL holds no tab, carriage return or line feed, so
    the [source:] line of a document is one line; and two documents made
    from canonical URLs are equal only when both the URL and the Markdown
    text are. *)
Theorem document_identifies_its_source :
  (forall u v, _normalize_url u = Some v -> any is_unsafe v = false)
  /\ (forall u u' v v' markdown_text markdown_text',
        _normalize_url u = Some v -> _normalize_url u' = Some v' ->
        document v markdown_text = document v' markdown_text' ->
        v = v' /\ markdown_text = markdown_text').
Proof.
  split; [exact normalize_safe|].
  intros u u' v v' m m' Hv Hv' E.
  apply normalize_safe in Hv, Hv'.
  unfold document in E.
  change ("---" +:+ newline +:+ "source: " +:+ v +:+ newline +:+ "---"
          +:+ newline +:+ newline +:+ m)
    with ("---" +:+ newline +:+ "source: "
          +:+ (v +:+ newline +:+ ("---" +:+ newline +:+ newline +:+ m))) in E.
  change ("---" +:+ newline +:+ "source: " +:+ v' +:+ newline +:+ "---"
          +:+ newline +:+ newline +:+ m')
    with ("---" +:+ newline +:+ "source: "
          +:+ (v' +:+ newline +:+ ("---" +:+ newline +:+ newline +:+ m'))) in E.
  simpl in E. inversion E as [E'].
  destruct (first_line_unique _ _ _ _ Hv Hv' E') as [-> Er].
  split; [reflexivity|]. simpl in Er. now inversion Er.
Qed.

End NormalizerExtras.

Module NormalizerExtraExamples.
#[local] Existing Instance plain_urllib.
Import PyStr UrlParse Toy.

Lemma query_and_fragment_are_ignored_witness :
  any (char_in "?#") "http://h/p/" = false /\ char_in "?#" "?" = true
  /\ _normalize_url "http://h/p/?x=1#f" = _normalize_url "http://h/p/".
Proof.
  split; [reflexivity|]. split; [reflexivity|].
  exact (proj1 (query_and_fragment_are_ignored "http://h/p/" "?" "x=1#f"
                  eq_refl eq_refl)).
Defined.

Lemma filename_of_canonical_url_witness :
  urlparse "http://h/p/?x=1#f" = Some sample_parse
  /\ exists v,
       _normalize_url "http://h/p/?x=1#f" = Some v
       /\ _filename_from_url v = _filename_from_url "http://h/p/?x=1#f".
Proof.
  split; [reflexivity|].
  apply (filename_of_canonical_url "http://h/p/?x=1#f" sample_parse);
    [reflexivity | discriminate | discriminate | reflexivity].
Defined.

(** Without a host the two names can differ: the first pass moves the
    path of [mailto:a@b] to the place of the host. *)
Example filename_without_host :
  _normalize_url "mailto:a@b" = Some "mailto://a@b"
  /\ _filename_from_url "mailto:a@b" = Some "a@b.md"
  /\ _filename_from_url "mailto://a@b" = Some "index.md".
Proof. repeat split; vm_compute; reflexivity. Qed.

Lemma document_identifies_its_source_witness :
  _normalize_url "http://h/p/" = Some "http://h/p"
  /\ any UrlParse.is_unsafe "http://h/p" = false.
Proof.
  split; [reflexivity|].
  exact (proj1 document_identifies_its_source "http://h/p/" "http://h/p" eq_refl).
Defined.

End NormalizerExtraExamples.

(** * Further properties of the crawl engine *)

Section EngineExtraFacts.
Context `{UrlLib} `{Collaborators}.
Variable self : MarkdownExtractor.
Import PyStr PyStrFacts NameFacts.

(** [across_calls] for relations that hold across a page only under a
    condition on the parent folder which every digest8 token meets. *)
Lemma across_calls_from (P : option string -> Prop)
    (R : Z -> state -> state -> Prop) :
  (forall d st, R d st st) ->
  (forall d st1 st2 st3, R d st1 st2 -> R d st2 st3 -> R d st1 st3) ->
  (forall d st st', (d < max_depth self)%Z -> R (d + 1)%Z st st' -> R d st st') ->
  (forall u, P (Some (hash_prefix u))) ->
  (forall url d parent st,
     P parent -> R d st (state_of (process_page self url d parent st))) ->
  forall url d parent st,
    P parent -> R d st (snd (fetch_and_save self url d parent st)).
Proof.
  intros Hrefl Htrans Hup Htok Hpage.
  assert (Hn : forall n url d parent st,
             P parent ->
             (Z.to_nat (max_depth self - d) <= n)%nat ->
             R d st (snd (fetch_and_save self url d parent st))).
  { induction n as [|n IH]; intros url d parent st HP Hle;
      rewrite fetch_and_save_unfold;
      pose proof (Hpage url d parent st HP) as Hp;
      destruct (process_page self url d parent st) as [o st'|final_url links st'];
      simpl in *; try exact Hp;
      destruct (d <? max_depth self)%Z eqn:Hd; try exact Hp;
      apply Z.ltb_lt in Hd; [lia|].
    apply (Htrans _ _ _ _ Hp). apply Hup; [exact Hd|].
    pose proof (Htok final_url) as HP'.
    generalize dependent (Some (hash_prefix final_url)). intros parent' HP'.
    clear Hp. revert st'. induction links as [|l links IHl]; intros st'; simpl.
    - apply Hrefl.
    - pose proof (IH l (d + 1)%Z parent' st' HP' ltac:(lia)) as Hl.
      destruct (fetch_and_save self l (d + 1) parent' st') as [[] st''];
        simpl in *; [|exact Hl].
      exact (Htrans _ _ _ _ Hl (IHl st'')). }
  intros url d parent st HP. now apply (Hn (Z.to_nat (max_depth self - d))).
Qed.

Lemma length_choose_filepath folder filename :
  (String.length (choose_filepath folder filename)
   <= Nat.max 240 (String.length folder + 14))%nat.
Proof.
  unfold choose_filepath, plain_filepath, fallback_filepath.
  destruct (240 <? _)%nat eqn:E.
  - pose proof (length_join folder
                  (take 10 (MD5.hexdigest (PosixPath.join folder filename)) +:+ ".md")).
    pose proof (length_fallback_name (PosixPath.join folder filename)). lia.
  - apply Nat.ltb_ge in E. lia.
Qed.

Lemma page_filepath_under_base parent final_url filepath :
  token_like parent ->
  page_filepath self parent final_url = Some filepath ->
  under_base self filepath.
Proof.
  intros HP. unfold page_filepath.
  destruct (_filename_from_url final_url) as [filename|] eqn:Hf; [|discriminate].
  intros [= <-].
  destruct (page_folder_shape self parent final_url) as [Hne He].
  destruct (choose_filepath_name _ filename Hne He (filename_relative _ _ Hf))
    as (name & E & _ & _).
  destruct (hash_prefix_relative final_url) as (_ & Hs & _).
  split.
  - rewrite E. eapply UrlFacts.initial_trans; [|eexists; reflexivity].
    unfold page_folder. eapply UrlFacts.initial_trans; [|now apply join_initial].
    destruct parent as [t|]; [|apply UrlFacts.initial_refl].
    destruct HP as [Ht _]. now apply join_initial.
  - pose proof (length_choose_filepath (page_folder self parent final_url) filename).
    pose proof (length_page_folder self parent final_url).
    destruct parent as [t|]; [destruct HP as [_ Ht]|]; lia.
Qed.

Lemma writes_under_calls url d parent st :
  token_like parent ->
  writes_under self st (snd (fetch_and_save self url d parent st)).
Proof.
  apply (across_calls_from token_like (fun _ => writes_under self)).
  - intros _ s. exists []. rewrite app_nil_r.
    split; [reflexivity|]. split; [constructor | auto].
  - intros _ s1 s2 s3 (n1 & L1 & F1 & K1) (n2 & L2 & F2 & K2).
    exists (n1 ++ n2). unfold writes_of in *. rewrite !omap_app, !fmap_app.
    split; [rewrite L2, L1; now rewrite app_assoc|].
    split; [apply Forall_app; now split|].
    intros p Hp. rewrite K2, K1; [reflexivity | |]; set_solver.
  - auto.
  - intros u. destruct (hash_prefix_shape u) as [Hl _].
    destruct (hash_prefix_relative u) as (_ & Hs & _). split; [exact Hs | lia].
  - intros u d0 p s HP.
    destruct (process_page_effect self u d0 p s) as (new & L & _ & M).
    exists new. split; [exact L|].
    destruct (process_page self u d0 p s) as [o st'|final_url links st']; simpl in *.
    + destruct M as (-> & _ & ->). split; [constructor | auto].
    + destruct M as (_ & _ & filepath & md & Hpath & -> & ->).
      split; [repeat constructor; now apply (page_filepath_under_base p final_url)|].
      intros q Hq. apply lookup_insert_ne. set_solver.
Qed.

Lemma process_page_canonical url d parent st final_url links st' :
  process_page self url d parent st = Persisted final_url links st' ->
  exists raw, _normalize_url raw = Some final_url.
Proof.
  unfold process_page. destruct (_normalize_url url); [|discriminate]. simpl.
  destruct (requests_get _ _) as [w [resp|]]; [|discriminate].
  set (st1 := emit _ _).
  pose proof (handle_response_effect self parent resp st1) as (_ & new & _ & _ & _ & M).
  intros E. rewrite E in M. destruct M as (Hn & _). eauto.
Qed.

Lemma visits_canonical_calls url d parent st :
  visits_canonical st (snd (fetch_and_save self url d parent st)).
Proof.
  apply (across_calls self (fun _ => visits_canonical)).
  - intros _ s v Hv. now left.
  - intros _ s1 s2 s3 H12 H23 v Hv.
    destruct (H23 v Hv) as [Hv2 | ?]; [now apply H12 | now right].
  - auto.
  - intros u d0 p s v Hv.
    destruct (process_page_effect self u d0 p s) as (new & _ & _ & M).
    destruct (process_page self u d0 p s) as [o st'|final_url links st'] eqn:E;
      simpl in *.
    + destruct M as (_ & <- & _). now left.
    + destruct M as (_ & Hvis & _). rewrite Hvis in Hv.
      apply elem_of_union in Hv as [Hv%elem_of_singleton | Hv]; [|now left].
      subst v. right. exact (process_page_canonical _ _ _ _ _ _ _ E).
Qed.

End EngineExtraFacts.

Section EngineExtras.
Context `{UrlLib} `{Collaborators}.
Variable self : MarkdownExtractor.
Import PyStr.

(** X8: when the page has no [<main>] element, no [div] of class
    [field-item] and no [div] of class [content-block], the task prints
    the warning and returns after its one request: nothing is written and
    the final URL is not marked visited, so the loop goes on with the next
    link and a later link to the same page is processed again. *)
Theorem page_without_content_is_left (url : string) (depth : Z)
    (parent_folder : option string) (st : state) (rest : list string)
    (nu : string) (w : World) (resp : response) (final_url : string) :
  _normalize_url url = Some nu ->
  requests_get (world st) (the_request nu) = (w, Some resp) ->
  _normalize_url (resp_url resp) = Some final_url ->
  final_url ∉ visited_urls st ->
  soup_find (BeautifulSoup (resp_text resp)) (ByTag "main") = None ->
  soup_find (BeautifulSoup (resp_text resp)) (ByTagClass "div" "field-item") = None ->
  soup_find (BeautifulSoup (resp_text resp)) (ByTagClass "div" "content-block") = None ->
  let st' :=
    mkState w (visited_urls st) (disk st)
      (log st ++ [Processing depth nu; HttpGet (the_request nu); NoMainContent]) in
  fetch_and_save self url depth parent_folder st = (Returned, st')
  /\ (final_url ∉ visited_urls st')
  /\ follow_links self (url :: rest) depth parent_folder st
     = follow_links self rest depth parent_folder st'.
Proof.
  intros Hn Hg Hf Hv H1 H2 H3 st'.
  assert (E : fetch_and_save self url depth parent_folder st = (Returned, st')).
  { rewrite fetch_and_save_unfold. unfold process_page. rewrite Hn. simpl.
    rewrite Hg. unfold handle_response. rewrite Hf.
    rewrite decide_False by exact Hv.
    unfold locate_main. rewrite H1, H2, H3.
    unfold st', emit, set_world. simpl. now rewrite <- !app_assoc. }
  split; [exact E|]. split; [exact Hv|]. simpl. now rewrite E.
Qed.

(** X15: an error of the file system is not caught. When the folder of
    a page cannot be made because a regular file lies at its path or on
    the way to it, the call ends with the exception after its one request:
    no file is written, the URL is not marked visited, and the loop over
    the links ends there, the remaining links being left unrequested. *)
Theorem folder_error_ends_the_crawl (url : string) (depth : Z)
    (parent_folder : option string) (st : state) (rest : list string)
    (nu : string) (w : World) (resp : response) (final_url : string)
    (main_content : Element) (links : list string) :
  _normalize_url url = Some nu ->
  requests_get (world st) (the_request nu) = (w, Some resp) ->
  _normalize_url (resp_url resp) = Some final_url ->
  final_url ∉ visited_urls st ->
  locate_main (BeautifulSoup (resp_text resp)) = Some main_content ->
  extract_links final_url main_content = Some links ->
  occupied (disk st) (page_folder self parent_folder final_url) ->
  let st' :=
    mkState w (visited_urls st) (disk st)
      (log st ++ [Processing depth nu; HttpGet (the_request nu)]) in
  fetch_and_save self url depth parent_folder st = (Raised, st')
  /\ follow_links self (url :: rest) depth parent_folder st = (Raised, st').
Proof.
  intros Hn Hg Hf Hv Hl He Hfile st'.
  assert (E : fetch_and_save self url depth parent_folder st = (Raised, st')).
  { rewrite fetch_and_save_unfold. unfold process_page. rewrite Hn. simpl.
    rewrite Hg. unfold handle_response. rewrite Hf.
    rewrite decide_False by exact Hv. rewrite Hl, He.
    unfold persist. simpl.
    rewrite (proj2 (makedirs_raises _ _) (or_intror Hfile)).
    unfold st', emit, set_world. simpl. now rewrite <- !app_assoc. }
  split; [exact E|]. simpl. now rewrite E.
Qed.

(** X9: a crawl started without parent folder writes only below the
    base folder: the path of every file it writes begins with the base
    folder, and every file whose path does not begin with the base folder
    is after the call what it was before, present or absent. *)
Theorem crawl_writes_only_under_base (url : string) (depth : Z) (st : state) :
  let st' := (fetch_and_save self url depth None st).2 in
  exists new,
    log st' = log st ++ new
    /\ Forall (fun w => initial (base_folder self) w.1) (writes_of new)
    /\ (forall p, ~ initial (base_folder self) p ->
          files (disk st') !! p = files (disk st) !! p).
Proof.
  intros st'.
  destruct (writes_under_calls self url depth None st I) as (new & L & F & K).
  exists new. split; [exact L|]. split.
  - eapply Forall_impl; [exact F|]. now intros w [Hw _].
  - intros p Hp. apply K. intros Hin.
    apply list_elem_of_fmap in Hin as (w & -> & Hw).
    rewrite Forall_forall in F. destruct (F w Hw) as [Hi _]. contradiction.
Qed.

(** X10: every file path written during a crawl started without parent
    folder is at most 240 characters long when the base folder is at most
    208 characters long, and in general at most the larger of 240 and the
    length of the base folder plus 32. *)
Theorem crawl_paths_are_bounded (url : string) (depth : Z) (st : state) :
  let st' := (fetch_and_save self url depth None st).2 in
  exists new,
    log st' = log st ++ new
    /\ Forall (fun w =>
                 (String.length w.1
                  <= Nat.max 240 (String.length (base_folder self) + 32))%nat
                 /\ ((String.length (base_folder self) <= 208)%nat ->
                     (String.length w.1 <= 240)%nat))
              (writes_of new).
Proof.
  intros st'.
  destruct (writes_under_calls self url depth None st I) as (new & L & F & _).
  exists new. split; [exact L|].
  eapply Forall_impl; [exact F|]. intros w [_ Hw]. split; [exact Hw | lia].
Qed.

(** X11: a whole run of [main]. The constructor raises, and the run
    ends before any request, exactly when the base folder is the empty
    path or a regular file lies at its path or on the way to it;
    otherwise, when the run ends, the visited set is exactly the set of
    source URLs of the files written, no URL was written twice, every
    visited URL is the canonical form of some URL and so ends in no slash,
    and every file that existed before the run still exists. *)
Theorem run_visits_what_it_writes (url : string) (maxd : Z) (base : string)
    (w : World) (fs : filesystem) :
  (main url maxd base w fs = None <-> base = "" \/ occupied fs base)
  /\ (forall o st',
        main url maxd base w fs = Some (o, st') ->
        visited_urls st' = list_to_set (writes_of (log st')).*2
        /\ NoDup (writes_of (log st')).*2
        /\ (forall v, v ∈ visited_urls st' ->
              (exists raw, _normalize_url raw = Some v) /\ endswith "/" v = false)
        /\ (forall p, is_Some (files fs !! p) -> is_Some (files (disk st') !! p))).
Proof.
  unfold main, init. split.
  - rewrite <- makedirs_raises.
    destruct (makedirs base fs); split; congruence.
  - intros o st'. destruct (makedirs base fs) as [fs'|] eqn:Hm; [|discriminate].
    pose proof (makedirs_files _ _ _ Hm) as Hfs.
    set (self0 := mkExtractor base maxd).
    set (st0 := mkState w ∅ fs' []).
    intros [= E]. assert (Est : st' = (fetch_and_save self0 url 0 None st0).2)
      by now rewrite E.
    destruct (writes_within_calls self0 url 0 None st0)
      as (new & L & V & D & _ & K & _).
    pose proof (visits_canonical_calls self0 url 0 None st0) as C.
    rewrite <- Est in L, V, K, C. simpl in L. rewrite L.
    split; [rewrite V; simpl; set_solver|]. split; [exact D|].
    split; [|intros p Hp; apply K; simpl; now rewrite Hfs].
    intros v Hv. destruct (C v Hv) as [Hv0 | [raw Hraw]]; [simpl in Hv0; set_solver|].
    split; [eauto|]. exact (UrlFacts.normalize_never_ends_with_slash _ _ Hraw).
Qed.

End EngineExtras.

Module EngineExtraExamples.
#[local] Existing Instance plain_urllib.
#[local] Existing Instance Pages.marked_web.
Import Pages.

Example crawl_marked_web :
  tasks_of (log (fetch_and_save crawler url_home 0 None start).2)
  = [(0%Z, url_home); (1%Z, url_field); (1%Z, url_bare)]
  /\ (writes_of (log (fetch_and_save crawler url_home 0 None start).2)).*2
     = [url_home; url_field].
Proof. split; vm_compute; reflexivity. Qed.

Lemma page_without_content_is_left_witness :
  _normalize_url url_bare = Some url_bare
  /\ (url_bare ∉ visited_urls start)
  /\ fetch_and_save crawler url_bare 1 None start
     = (Returned,
        mkState [the_request url_bare] (visited_urls start) (disk start)
          [Processing 1 url_bare; HttpGet (the_request url_bare); NoMainContent]).
Proof.
  split; [reflexivity|]. split; [apply not_elem_of_empty|].
  apply (page_without_content_is_left crawler url_bare 1%Z None start []
           url_bare [the_request url_bare] (mkResponse url_bare url_bare) url_bare);
    [reflexivity | reflexivity | reflexivity | apply not_elem_of_empty
     | reflexivity | reflexivity | reflexivity].
Defined.

Lemma folder_error_ends_the_crawl_witness :
  occupied (disk blocked) (page_folder crawler None url_field)
  /\ follow_links crawler [url_field; url_bare] 0 None blocked
     = (Raised,
        mkState [the_request url_field] (visited_urls blocked) (disk blocked)
          [Processing 0 url_field; HttpGet (the_request url_field)]).
Proof.
  assert (Hf : occupied (disk blocked) (page_folder crawler None url_field)).
  { apply Exists_app. right. constructor. exists "occupied".
    apply lookup_singleton_eq. }
  split; [exact Hf|].
  apply (folder_error_ends_the_crawl crawler url_field 0%Z None blocked [url_bare]
           url_field [the_request url_field] (mkResponse url_field url_field)
           url_field
           (mkMarked url_field (Some (ByTagClass "div" "field-item")) [] "field")
           []);
    [reflexivity | reflexivity | reflexivity | apply not_elem_of_empty
     | reflexivity | reflexivity | exact Hf].
Defined.

(** The same end when the regular file lies on the way to the folder, at
    the path of the folder of the parent page. *)
Example file_on_the_way_ends_the_crawl :
  page_folder crawler (Some "0a1b2c3d") url_field
  = "output/0a1b2c3d/" +:+ hash_prefix url_field
  /\ follow_links crawler [url_field; url_bare] 1 (Some "0a1b2c3d") blocked_above
     = (Raised,
        mkState [the_request url_field] (visited_urls blocked_above)
          (disk blocked_above)
          [Processing 1 url_field; HttpGet (the_request url_field)]).
Proof. split; vm_compute; reflexivity. Qed.

(** No run on an empty base folder, nor on a base folder below a regular
    file. *)
Example run_without_base_folder :
  main url_home 1 "" [] (mkFs ∅ ∅) = None
  /\ main url_home 1 "notes/output" [] (mkFs ∅ {[ "notes" := "text" ]}) = None.
Proof. split; vm_compute; reflexivity. Qed.

Lemma crawl_writes_only_under_base_witness :
  ~ PyStr.initial (base_folder crawler) "elsewhere/notes.md"
  /\ files (disk (fetch_and_save crawler url_home 0 None start).2) !! "elsewhere/notes.md"
     = files (disk start) !! "elsewhere/notes.md".
Proof.
  assert (Hout : ~ PyStr.initial (base_folder crawler) "elsewhere/notes.md")
    by (intros [t E]; discriminate E).
  split; [exact Hout|].
  destruct (crawl_writes_only_under_base crawler url_home 0 start)
    as (new & _ & _ & K).
  exact (K "elsewhere/notes.md" Hout).
Defined.

Lemma crawl_paths_are_bounded_witness :
  (String.length (base_folder crawler) <= 208)%nat
  /\ exists new,
       log (fetch_and_save crawler url_home 0 None start).2 = log start ++ new
       /\ Forall (fun w => (String.length w.1 <= 240)%nat) (writes_of new).
Proof.
  assert (Hb : (String.length (base_folder crawler) <= 208)%nat)
    by (vm_compute; lia).
  split; [exact Hb|].
  destruct (crawl_paths_are_bounded crawler url_home 0 start) as (new & L & F).
  exists new. split; [exact L|].
  eapply Forall_impl; [exact F|]. intros w [_ Hw]. exact (Hw Hb).
Defined.

Lemma run_visits_what_it_writes_witness :
  main url_home 1 "output" [] (mkFs ∅ ∅)
  = Some (fetch_and_save crawler url_home 0 None start)
  /\ visited_urls (fetch_and_save crawler url_home 0 None start).2
     = list_to_set
         (writes_of (log (fetch_and_save crawler url_home 0 None start).2)).*2.
Proof.
  assert (E : main url_home 1 "output" [] (mkFs ∅ ∅)
              = Some (fetch_and_save crawler url_home 0 None start))
    by (vm_compute; reflexivity).
  split; [exact E|].
  refine (proj1 (proj2 (run_visits_what_it_writes url_home 1 "output" []
                          (mkFs ∅ ∅))
                   (fetch_and_save crawler url_home 0 None start).1
                   (fetch_and_save crawler url_home 0 None start).2 _)).
  rewrite E. now destruct (fetch_and_save crawler url_home 0 None start).
Defined.

End EngineExtraExamples.

(** * The eCFR scripts *)

Module ECFRFacts.
Import PyStr PyStrFacts NameFacts ECFR.

Lemma break_dot_found identifier a b :
  any (is_char ".") identifier = true ->
  break (is_char ".") identifier = (a, b) ->
  identifier = a +:+ "." +:+ tail b /\ any (is_char ".") a = false.
Proof.
  intros Hd E. pose proof (break_app _ _ _ _ E) as Ei.
  pose proof (break_fst_none _ _ _ _ E) as Ha.
  split; [|exact Ha].
  destruct (break_snd_head _ _ _ _ E) as [-> | (c & b' & -> & Hc)].
  - rewrite append_empty_r in Ei. subst a. congruence.
  - apply Ascii.eqb_eq in Hc. subst c. exact Ei.
Qed.

(** X12: the parameters sent for an entry. The [part] parameter is the
    identifier up to its first dot and holds no dot; the [section]
    parameter is sent exactly when something follows the first dot of the
    identifier, and its value is then the identifier itself. *)
Theorem section_parameter_is_identifier (identifier : string) :
  exists part,
    any (is_char ".") part = false
    /\ initial part identifier
    /\ (params_of_identifier identifier = [("part", part)]
        /\ (identifier = part \/ identifier = part +:+ ".")
        \/ params_of_identifier identifier = [("part", part); ("section", identifier)]
           /\ exists section,
                section <> "" /\ identifier = part +:+ "." +:+ section).
Proof.
  unfold params_of_identifier, split_identifier.
  destruct (any (is_char ".") identifier) eqn:Hd.
  - destruct (break (is_char ".") identifier) as [a b] eqn:E.
    destruct (break_dot_found _ _ _ Hd E) as [Ei Ha].
    exists a. split; [exact Ha|]. split; [rewrite Ei; eexists; reflexivity|].
    unfold full_text_params. destruct (tail b) as [|c s] eqn:Et; simpl.
    + left. split; [reflexivity|]. right. exact Ei.
    + right. split; [now rewrite Ei|]. exists (String c s). now split.
  - exists identifier. split; [exact Hd|]. split; [exists ""; now rewrite append_empty_r|].
    left. split; [reflexivity | now left].
Qed.

Lemma firstn_split_length {A} n (l : list A) :
  exists dropped, l = firstn n l ++ dropped
                  /\ List.length (firstn n l) = Nat.min n (List.length l).
Proof.
  exists (skipn n l). split; [symmetry; apply firstn_skipn | apply List.length_firstn].
Qed.

(** X13: the entry limit. The entries kept are always an initial part of
    the entries found. Without [--max], and also with [--max 0], all of
    them are kept; a positive limit keeps that many, or all when there are
    fewer; a negative limit drops that many from the end. *)
Theorem entry_limit {A : Type} (max : option Z) (entries : list A) :
  exists dropped,
    entries = limit_entries max entries ++ dropped
    /\ List.length (limit_entries max entries)
       = match max with
         | None => List.length entries
         | Some m =>
             if (m =? 0)%Z then List.length entries
             else if (0 <? m)%Z then Nat.min (Z.to_nat m) (List.length entries)
             else (List.length entries - Z.to_nat (- m))%nat
         end.
Proof.
  unfold limit_entries.
  destruct max as [m|]; [|exists []; now rewrite app_nil_r].
  destruct (m =? 0)%Z eqn:E0; [exists []; now rewrite app_nil_r|].
  apply Z.eqb_neq in E0. unfold slice_to.
  destruct (0 <=? m)%Z eqn:E1.
  - apply Z.leb_le in E1.
    replace (0 <? m)%Z with true by (symmetry; apply Z.ltb_lt; lia).
    apply firstn_split_length.
  - apply Z.leb_gt in E1.
    replace (0 <? m)%Z with false by (symmetry; apply Z.ltb_ge; lia).
    destruct (firstn_split_length
                (Z.to_nat (Z.of_nat (List.length entries) + m)) entries)
      as (dropped & Hd & Hl).
    exists dropped. split; [exact Hd|]. rewrite Hl. lia.
Qed.

End ECFRFacts.

Module ListMarkerFacts.
Import PyStr PyStrFacts NameFacts ListMarkers.

Lemma lstrip_head p (s : string) :
  lstrip p s = "" \/ exists c s', lstrip p s = String c s' /\ p c = false.
Proof.
  induction s as [|x s IH]; [now left|]. simpl.
  destruct (p x) eqn:Hx; [exact IH | right; eauto].
Qed.

Lemma lstrip_fixed_head p (s : string) :
  (s = "" \/ exists c s', s = String c s' /\ p c = false) -> lstrip p s = s.
Proof. intros [-> | (c & s' & -> & Hc)]; [reflexivity|]. simpl. now rewrite Hc. Qed.

Lemma all_break_negb p (s : string) :
  all p (fst (break (fun c => negb (p c)) s)) = true.
Proof.
  induction s as [|x s IH]; [reflexivity|]. simpl.
  destruct (p x) eqn:Hx; simpl; [|reflexivity].
  destruct (break _ s) as [a b]. simpl in *. now rewrite Hx, IH.
Qed.

Lemma alnum_facts c :
  is_alnum c = true -> is_line_feed c = false /\ is_char ")" c = false.
Proof. destruct c as [[] [] [] [] [] [] [] []]; vm_compute; intros; try discriminate; now split. Qed.

Lemma line_feed_is_space c : is_line_feed c = true -> is_space c = true.
Proof. destruct c as [[] [] [] [] [] [] [] []]; vm_compute; congruence. Qed.

(** What a successful match gives. *)
Lemma match_marker_inv txt label resto :
  match_marker txt = Some (label, resto) ->
  label <> "" /\ all is_alnum label = true
  /\ any is_line_feed resto = false
  /\ (resto = "" \/ exists c r, resto = String c r /\ is_space c = false)
  /\ exists spaces more,
       txt = "(" +:+ label +:+ ")" +:+ spaces +:+ resto +:+ more
       /\ all is_space spaces = true.
Proof.
  unfold match_marker. destruct txt as [|c0 rest]; [discriminate|].
  destruct (Ascii.eqb c0 "(") eqn:E0.
  2:{ intros Hm. exfalso. revert Hm E0.
      destruct c0 as [[] [] [] [] [] [] [] []]; vm_compute; congruence. }
  apply Ascii.eqb_eq in E0. subst c0. cbv beta iota.
  pose proof (all_break_negb is_alnum rest) as Hal.
  destruct (break (fun c => negb (is_alnum c)) rest) as [lab after] eqn:Eb.
  simpl in Hal. destruct (is_empty lab) eqn:Hl; [discriminate|].
  destruct after as [|c1 after']; [discriminate|].
  destruct (Ascii.eqb c1 ")") eqn:E1.
  2:{ intros Hm. exfalso. revert Hm E1.
      destruct c1 as [[] [] [] [] [] [] [] []]; vm_compute; congruence. }
  apply Ascii.eqb_eq in E1. subst c1. intros [= <- <-].
  split; [now apply is_empty_false|]. split; [exact Hal|].
  destruct (break is_line_feed (lstrip is_space after')) as [r more] eqn:Er.
  simpl. split; [exact (break_fst_none _ _ _ _ Er)|].
  pose proof (break_app _ _ _ _ Er) as Es.
  split.
  - destruct (lstrip_head is_space after') as [E | (c & s' & E & Hc)];
      rewrite E in Es.
    + left. destruct r; [reflexivity | discriminate].
    + destruct r as [|x r]; [now left | right].
      inversion Es; subst x. eauto.
  - assert (Hsp : exists spaces, after' = spaces +:+ lstrip is_space after'
                                 /\ all is_space spaces = true).
    { clear. induction after' as [|x s (sp & E & Hsp)].
      - exists "". now split.
      - simpl. destruct (is_space x) eqn:Hx.
        + exists (String x sp). simpl. rewrite Hx, Hsp. split; [|reflexivity].
          f_equal. exact E.
        + exists "". now split. }
    destruct Hsp as (spaces & Ea & Hsp).
    exists spaces, more. split; [|exact Hsp].
    apply break_app in Eb. rewrite Eb. simpl. do 3 f_equal.
    rewrite Ea at 1. now rewrite Es.
Qed.

(** X14: the text of a list item. When a paragraph matches, its label
    is a non-empty run of ASCII letters and digits, so the level is at
    least one; the item text holds no line feed, the rest of the paragraph
    being cut at its first line feed; and the item text matches again,
    with the same label and the same rest. *)
Theorem list_item_matches_again (txt label resto : string) :
  match_marker txt = Some (label, resto) ->
  (1 <= nivel label)%nat
  /\ all is_alnum label = true
  /\ any is_line_feed (li_txt label resto) = false
  /\ match_marker (li_txt label resto) = Some (label, resto).
Proof.
  intros Hm.
  destruct (match_marker_inv _ _ _ Hm) as (Hne & Hal & Hnl & Hhead & _).
  assert (Hlab : any is_line_feed label = false
                 /\ any (fun c => negb (is_alnum c)) label = false).
  { split; eapply all_implies_none; try exact Hal; intros c Hc.
    - now apply alnum_facts in Hc as [? _].
    - now rewrite Hc. }
  destruct Hlab as [Hlf Hnon].
  split; [unfold nivel; destruct label; [congruence | simpl; lia]|].
  split; [exact Hal|]. split.
  - unfold li_txt.
    change ("(" +:+ label +:+ ") " +:+ resto)
      with (String "(" (label +:+ (") " +:+ resto))).
    cbn [any]. rewrite any_app, Hlf.
    change (") " +:+ resto) with (String ")" (String " " resto)).
    cbn [any]. now rewrite Hnl.
  - unfold li_txt, match_marker.
    change ("(" +:+ label +:+ ") " +:+ resto)
      with (String "(" (label +:+ String ")" (" " +:+ resto))).
    cbv beta iota.
    rewrite (break_exact _ label (String ")" (" " +:+ resto)) Hnon)
      by (right; eexists _, _; split; reflexivity).
    apply is_empty_false in Hne. rewrite Hne.
    change (lstrip is_space (" " +:+ resto)) with (lstrip is_space resto).
    rewrite (lstrip_fixed_head _ _ Hhead).
    destruct (break is_line_feed resto) as [a b] eqn:Eb.
    destruct (break_snd_empty _ _ _ _ Eb Hnl) as [-> _]. reflexivity.
Qed.

End ListMarkerFacts.

Module ECFRExamples.
Import PyStr ECFR ListMarkers.

Example params_of_section :
  params_of_identifier "21.15" = [("part", "21"); ("section", "21.15")]
  /\ params_of_identifier "21" = [("part", "21")]
  /\ params_of_identifier "21." = [("part", "21")]
  /\ params_of_identifier "21.1.2" = [("part", "21"); ("section", "21.1.2")].
Proof. repeat split. Qed.

Example limit_cases :
  limit_entries (Some 0%Z) [1; 2; 3]%nat = [1; 2; 3]%nat
  /\ limit_entries (Some 2%Z) [1; 2; 3]%nat = [1; 2]%nat
  /\ limit_entries (Some (-1)%Z) [1; 2; 3]%nat = [1; 2]%nat
  /\ limit_entries (Some (-5)%Z) [1; 2; 3]%nat = [].
Proof. repeat split. Qed.

Lemma list_item_matches_again_witness :
  match_marker ("(a)   Aircraft" +:+ newline +:+ "engines")
  = Some ("a", "Aircraft")
  /\ match_marker (li_txt "a" "Aircraft") = Some ("a", "Aircraft").
Proof.
  split; [reflexivity|].
  exact (proj2 (proj2 (proj2
           (ListMarkerFacts.list_item_matches_again ("(a)   Aircraft" +:+ newline +:+ "engines")
              "a" "Aircraft" eq_refl)))).
Defined.

End ECFRExamples.
